(** * naval-waf-anomaly-detection: the feature-to-decision chain

    A shallow embedding of the pipeline stages

      features -> schema-bound inference -> baseline explanations
               -> risk score -> severity / recommended action

    taken from [src/features/feature_engineering.py],
    [src/ml/anomaly_detector.py], [src/ml/explainability.py],
    [src/ml/ml_engine.py] and [src/rules/rule_engine.py].

    Conventions of the embedding:
    - a pandas DataFrame handled by column label is an association list from
      labels to columns ([Inference.DataFrame]); the later stages, which read
      a fixed set of columns row by row, see a list of records ([Row]);
    - a Python exception is a value of [exn], returned through [result];
    - numbers computed in double precision are values of [float64] below. *)

From Stdlib Require Import ZArith QArith Qround Qminmax Lia Lqa.
From Stdlib Require Import List String Ascii Bool DecimalString Permutation.
Import ListNotations.

Local Open Scope Q_scope.

(** ** Numbers *)

(** [float64] stands for the values the Python code computes in double
    precision.  Finite values are exact rationals (the rounding error of a
    finite operation is not modelled); the three special values behave as in
    IEEE 754: a division by zero gives an infinity or, for [0/0], [NaN]; [NaN]
    propagates through arithmetic and makes every ordered comparison false. *)
Inductive float64 : Type :=
| Fin (q : Q)
| NaN
| PInf
| NInf.

Module F.

Definition inf_of_sign (c : comparison) : float64 :=
  match c with Eq => NaN | Gt => PInf | Lt => NInf end.

Definition add (x y : float64) : float64 :=
  match x, y with
  | NaN, _ | _, NaN => NaN
  | Fin a, Fin b => Fin (a + b)
  | PInf, NInf | NInf, PInf => NaN
  | PInf, _ | _, PInf => PInf
  | NInf, _ | _, NInf => NInf
  end.

Definition mul (x y : float64) : float64 :=
  match x, y with
  | NaN, _ | _, NaN => NaN
  | Fin a, Fin b => Fin (a * b)
  | Fin a, PInf | PInf, Fin a => inf_of_sign (a ?= 0)
  | Fin a, NInf | NInf, Fin a => inf_of_sign (0 ?= a)
  | PInf, PInf | NInf, NInf => PInf
  | PInf, NInf | NInf, PInf => NInf
  end.

(** Division as numpy performs it on arrays: no exception, [x/0] is an
    infinity of the sign of [x] and [0/0] is [NaN]. *)
Definition div (x y : float64) : float64 :=
  match x, y with
  | NaN, _ | _, NaN => NaN
  | Fin a, Fin b =>
      match b ?= 0 with
      | Eq => inf_of_sign (a ?= 0)
      | _ => Fin (a / b)
      end
  | Fin _, (PInf | NInf) => Fin 0
  | (PInf | NInf), (PInf | NInf) => NaN
  | PInf, Fin b => match b ?= 0 with Lt => NInf | _ => PInf end
  | NInf, Fin b => match b ?= 0 with Lt => PInf | _ => NInf end
  end.

(** [x < y]; false as soon as one side is [NaN]. *)
Definition ltb (x y : float64) : bool :=
  match x, y with
  | NaN, _ | _, NaN => false
  | Fin a, Fin b => match a ?= b with Lt => true | _ => false end
  | NInf, (Fin _ | PInf) => true
  | Fin _, PInf => true
  | _, _ => false
  end.

(** [x <= y]; false as soon as one side is [NaN]. *)
Definition leb (x y : float64) : bool :=
  match x, y with
  | NaN, _ | _, NaN => false
  | Fin a, Fin b => match a ?= b with Gt => false | _ => true end
  | NInf, _ | _, PInf => true
  | _, _ => false
  end.

Definition gtb (x y : float64) : bool := ltb y x.
Definition geb (x y : float64) : bool := leb y x.

Definition is_finite (x : float64) : bool :=
  match x with Fin _ => true | _ => false end.

Definition of_Z (z : Z) : float64 := Fin (inject_Z z).

(** Rounding of a rational to the nearest integer, ties to the even one
    (what [numpy.rint] does). *)
Definition rint (q : Q) : Z :=
  let f := Qfloor q in
  match (q - inject_Z f ?= 1 # 2)%Q with
  | Lt => f
  | Gt => (f + 1)%Z
  | Eq => if Z.even f then f else (f + 1)%Z
  end.

(** [Series.round(2)]: scale by 100, round to the nearest integer, scale
    back.  The special values are left as they are. *)
Definition round2 (x : float64) : float64 :=
  match x with
  | Fin q => Fin (rint (q * 100) # 100)
  | other => other
  end.

(** The builtin [min(a, b)] of Python: [b] when [b < a], else [a]. *)
Definition py_min (a b : float64) : float64 :=
  if ltb b a then b else a.

(** Truncation toward zero of a rational, the finite case of [int(x)]. *)
Definition truncate (q : Q) : Z := Z.quot (Qnum q) (Z.pos (Qden q)).

End F.

Declare Scope f64_scope.
Delimit Scope f64_scope with f64.
Infix "+" := F.add : f64_scope.
Infix "*" := F.mul : f64_scope.
Infix "/" := F.div : f64_scope.

(** ** Exceptions *)

Inductive exn : Type :=
| RuntimeError (msg : string)
| ValueError (msg : string)
| OverflowError (msg : string)
| KeyError (label : string)
(** [ValueError(f"Missing required feature columns: {missing}")]: the
    interpolated list is kept as a list. *)
| ValueError_missing_columns (missing : list string).

Inductive result (A : Type) : Type :=
| Ok (a : A)
| Raise (e : exn).
Arguments Ok {A} a.
Arguments Raise {A} e.

Definition bind {A B : Type} (m : result A) (k : A -> result B) : result B :=
  match m with
  | Ok a => k a
  | Raise e => Raise e
  end.

Notation "x <- m ;; k" := (bind m (fun x => k))
  (at level 61, m at next level, right associativity).

(** [int(x)] on a float: truncation, and an exception on the special values. *)
Definition py_int (x : float64) : result Z :=
  match x with
  | Fin q => Ok (F.truncate q)
  | NaN => Raise (ValueError "cannot convert float NaN to integer")
  | PInf | NInf => Raise (OverflowError "cannot convert float infinity to integer")
  end.

(** [Series.max()] of a column of finite numbers: [NaN] on the empty column. *)
Fixpoint series_max (xs : list Q) : float64 :=
  match xs with
  | [] => NaN
  | x :: rest =>
      match series_max rest with
      | Fin m => Fin (match x ?= m with Lt => m | _ => x end)
      | _ => Fin x
      end
  end.

(** [Series.mean()] of a column of finite numbers: the sum over the count,
    [NaN] on the empty column. *)
Definition series_sum (xs : list Q) : Q := fold_right Qplus 0 xs.

Definition series_mean (xs : list Q) : float64 :=
  (Fin (series_sum xs) / F.of_Z (Z.of_nat (List.length xs)))%f64.

(** ** Strings *)

Module PyStr.

(** [sep.join(xs)] *)
Fixpoint join (sep : string) (xs : list string) : string :=
  match xs with
  | [] => ""
  | [x] => x
  | x :: rest => x ++ sep ++ join sep rest
  end.

(** [str.lower()] on the bytes of a string: the ASCII capitals are mapped
    to their small letters, every other byte (so every byte of a
    multi-byte character such as the multiplication sign) is kept. *)
Definition lower_ascii (c : ascii) : ascii :=
  let n := nat_of_ascii c in
  if ((65 <=? n) && (n <=? 90))%nat then ascii_of_nat (n + 32) else c.

Fixpoint lower (s : string) : string :=
  match s with
  | EmptyString => EmptyString
  | String c rest => String (lower_ascii c) (lower rest)
  end.

(** [needle in hay] *)
Fixpoint contains (needle hay : string) : bool :=
  String.prefix needle hay
  || match hay with
     | EmptyString => false
     | String _ rest => contains needle rest
     end.

(** No byte of [s] is [c]. *)
Fixpoint free_of (c : ascii) (s : string) : bool :=
  match s with
  | EmptyString => true
  | String a rest => negb (Ascii.eqb a c) && free_of c rest
  end.

(** [str(n)] for a natural number. *)
Definition str_of_nat (n : nat) : string :=
  NilZero.string_of_uint (Nat.to_uint n).

(** Every byte of [s] is one of [alphabet]. *)
Fixpoint over (alphabet s : string) : bool :=
  match s with
  | EmptyString => true
  | String a rest => negb (free_of a alphabet) && over alphabet rest
  end.

(** The bytes an f-string prints for a float: digits, point, signs, the
    exponent mark and the letters of "inf" and "nan". *)
Definition float_alphabet : string := "0123456789.+-einfa".

(** The multiplication sign U+00D7, as its two UTF-8 bytes. *)
Definition times_sign : string :=
  String (ascii_of_nat 195) (String (ascii_of_nat 151) EmptyString).

End PyStr.

(** ** Records of the pipeline *)

(** One row of the feature table after inference: the columns written by
    [feature_engineering.py] and the three added by [anomaly_detector.py].
    The aggregated features are finite numbers; [burst_score] and
    [anomaly_score] are results of floating-point computations. *)
Record Row : Type := {
  ip : string;
  req_per_min : Z;
  avg_resp_time : Q;
  error_rate : Q;
  avg_req_size : Q;
  unique_endpoints : Z;
  burst_score : float64;
  anomaly_score : float64;
  anomaly : Z;
  anomaly_label : string
}.

Inductive Severity : Type := Low | Medium | High.

Definition severity_str (s : Severity) : string :=
  match s with
  | Low => "Low"
  | Medium => "Medium"
  | High => "High"
  end.

(** The order Low < Medium < High. *)
Definition severity_rank (s : Severity) : nat :=
  match s with
  | Low => 0
  | Medium => 1
  | High => 2
  end.

Definition severity_le (s t : Severity) : Prop :=
  (severity_rank s <= severity_rank t)%nat.

(** ** feature_engineering.py *)

Module FeatureEngineering.

(** [features["req_per_min"] / features["req_per_min"].max()] *)
Definition burst_score_column (req : list Z) : list float64 :=
  let m := series_max (map inject_Z req) in
  map (fun r => (F.of_Z r / m)%f64) req.

End FeatureEngineering.

(** ** ml_engine.py: the composite policy *)

Module MlEngine.

(** The column assigned to [df["risk_score"]]. *)
Definition compute_risk_score (df : list Row) : list float64 :=
  let max_req := series_max (map (fun r => inject_Z (req_per_min r)) df) in
  let max_resp := series_max (map avg_resp_time df) in
  map (fun r =>
         F.round2 ((F.of_Z (req_per_min r) / max_req) * Fin 4
                   + Fin (error_rate r) * Fin 4
                   + (Fin (avg_resp_time r) / max_resp) * Fin 2)%f64)
      df.

Definition severity (score : float64) : Severity :=
  if F.geb score (Fin 7) then High
  else if F.geb score (Fin 4) then Medium
  else Low.

Definition action (sev : Severity) : string :=
  match sev with
  | High => "Block IP and alert SOC immediately"
  | Medium => "Apply rate limiting and monitor closely"
  | Low => "Allow traffic and continue monitoring"
  end.

(** The columns [severity] and [recommended_action], from [risk_score]. *)
Definition assign_severity_and_action (risk_score : list float64)
  : list (Severity * string) :=
  map (fun s => (severity s, action (severity s))) risk_score.

End MlEngine.

(** ** rule_engine.py: the weighted-cap policy *)

Module RuleEngine.

Definition calculate_risk (row : Row) : result Z :=
  let score := Fin 0 in
  let score := (score + F.py_min (F.of_Z (req_per_min row) * Fin (1 # 2)) (Fin 30))%f64 in
  let score := (score + Fin (error_rate row) * Fin 40)%f64 in
  let score := (score + burst_score row * Fin 30)%f64 in
  py_int (F.py_min score (Fin 100)).

Definition assign_severity (score : Z) : Severity :=
  if (score >=? 70)%Z then High
  else if (score >=? 40)%Z then Medium
  else Low.

(** [recommend_rule(row)], on the two cells of the row it reads. *)
Definition recommend_rule (label explanation : string) : string :=
  if negb (String.eqb label "Anomaly") then "No action required"
  else
    let explanation := PyStr.lower explanation in
    if PyStr.contains "high request rate" explanation
    then "Rate limit IP for 5 minutes"
    else if PyStr.contains "error rate" explanation
    then "Temporarily block IP"
    else if PyStr.contains "payload" explanation
    then "Inspect payload and block if repeated"
    else "Monitor traffic closely".

End RuleEngine.

(** ** anomaly_detector.py *)

Module Inference.

Inductive cell : Type :=
| CInt (z : Z)
| CFloat (x : float64)
| CStr (s : string).

(** A DataFrame as its columns, in order: label and cells. *)
Definition DataFrame : Type := list (string * list cell).

Definition columns (df : DataFrame) : list string := map fst df.

(** [label in labels] *)
Definition mem (label : string) (labels : list string) : bool :=
  existsb (String.eqb label) labels.

(** [df[labels]] with a list of labels: for each label in turn, the
    columns of [df] that carry it; [KeyError] when a label is absent. *)
Definition getitem (df : DataFrame) (labels : list string) : result DataFrame :=
  match find (fun l => negb (mem l (columns df))) labels with
  | Some l => Raise (KeyError l)
  | None =>
      Ok (flat_map (fun l => filter (fun c => String.eqb (fst c) l) df) labels)
  end.

(** [df[label] = data]: replaces the column when the label exists, appends
    a new last column otherwise. *)
Definition setitem (df : DataFrame) (label : string) (data : list cell) : DataFrame :=
  if mem label (columns df)
  then map (fun c => if String.eqb (fst c) label then (label, data) else c) df
  else df ++ [(label, data)].

(** The fitted model as the engine sees it: the schema attribute, present
    or not, and the two scoring functions of the library. *)
Record ScoringModel : Type := {
  feature_names_in_ : option (list string);
  decision_function : DataFrame -> list float64;
  predict : DataFrame -> list Z
}.

Definition anomaly_label_of (x : Z) : string :=
  if (x =? -1)%Z then "Anomaly" else "Normal".

(** Lines 51-66 of [run_anomaly_detection]: the matrix [X] handed to the
    model. *)
Definition select_features (model : ScoringModel) (df : DataFrame)
  : result DataFrame :=
  match feature_names_in_ model with
  | None =>
      Raise (RuntimeError
               ("Model does not contain feature_names_in_. "
                ++ "This usually means it was trained using a NumPy array "
                ++ "instead of a DataFrame."))
  | Some names =>
      let feature_columns := names in
      let missing :=
        filter (fun col => negb (mem col (columns df))) feature_columns in
      match missing with
      | _ :: _ => Raise (ValueError_missing_columns missing)
      | [] => getitem df feature_columns
      end
  end.

(** [run_anomaly_detection], on the table read from [input_file] and the
    model read from [MODEL_FILE]; the result is the returned table. *)
Definition run_anomaly_detection (model : ScoringModel) (df : DataFrame)
  : result DataFrame :=
  X <- select_features model df ;;
  let df := setitem df "anomaly_score" (map CFloat (decision_function model X)) in
  let anomaly := predict model X in
  let df := setitem df "anomaly" (map CInt anomaly) in
  let df := setitem df "anomaly_label"
              (map (fun x => CStr (anomaly_label_of x)) anomaly) in
  Ok df.

End Inference.

(** ** train_model.py *)

Module Training.

(** [df.drop(columns=labels)]: the table without the columns under these
    labels; [KeyError] when a label is absent. *)
Definition drop (df : Inference.DataFrame) (labels : list string)
  : result Inference.DataFrame :=
  match find (fun l => negb (Inference.mem l (Inference.columns df))) labels with
  | Some l => Raise (KeyError l)
  | None => Ok (filter (fun c => negb (Inference.mem (fst c) labels)) df)
  end.

Section Fit.

(** [IsolationForest(n_estimators=100, contamination=0.15,
    random_state=42).fit(X)], the estimator of the library. *)
Variable fit : Inference.DataFrame -> Inference.ScoringModel.

(** The script: drop the identifier column, fit, and keep the model. *)
Definition train_model (df : Inference.DataFrame) : result Inference.ScoringModel :=
  X <- drop df ["ip"%string] ;;
  Ok (fit X).

End Fit.

End Training.

(** ** explainability.py *)

(** The table read by the explainer: its rows, and whether the two columns
    that [explain_row] probes with [in] are there. *)
Record Frame : Type := {
  rows : list Row;
  has_avg_req_size : bool;
  has_unique_endpoints : bool
}.

(** [normal_df.mean(numeric_only=True)], restricted to the labels read. *)
Record Baseline : Type := {
  base_req_per_min : float64;
  base_error_rate : float64;
  base_avg_resp_time : float64;
  base_avg_req_size : option float64;
  base_unique_endpoints : option float64
}.

(** The two columns added by [generate_explanations]. *)
Record Explained : Type := {
  req_rate_deviation : list float64;
  explanation : list string
}.

Definition within_baseline : string := "Traffic behavior within normal baseline".
Definition fallback_reason : string := "Multiple feature deviations from learned baseline".

Section Explainability.

(** How an f-string prints a float. *)
Variable format_float : float64 -> string.

(** [baseline.get(label, default)] *)
Definition baseline_get (entry : option float64) (default : float64) : float64 :=
  match entry with
  | Some v => v
  | None => default
  end.

Definition append_if (b : bool) (reasons : list string) (reason : string)
  : list string :=
  if b then reasons ++ [reason] else reasons.

(** [explain_row(row)]; [df] gives the labels of the row, [deviation] is
    [row['req_rate_deviation']]. *)
Definition explain_row (df : Frame) (baseline : Baseline)
           (row : Row) (deviation : float64) : string :=
  let reasons := [] in
  let reasons :=
    append_if (F.gtb (F.of_Z (req_per_min row))
                     (base_req_per_min baseline * Fin 2)%f64)
              reasons
              ("Request rate exceeded baseline by "
               ++ format_float deviation ++ PyStr.times_sign) in
  let reasons :=
    append_if (F.gtb (Fin (error_rate row))
                     (base_error_rate baseline * Fin 2)%f64)
              reasons "Unusually high error rate observed" in
  let reasons :=
    append_if (F.gtb (Fin (avg_resp_time row))
                     (base_avg_resp_time baseline * Fin (3 # 2))%f64)
              reasons "Response time significantly higher than baseline" in
  let reasons :=
    append_if (has_avg_req_size df
               && F.gtb (Fin (avg_req_size row))
                        (baseline_get (base_avg_req_size baseline) (Fin 0)
                         * Fin (3 # 2))%f64)
              reasons "Abnormally large request payloads" in
  let reasons :=
    append_if (has_unique_endpoints df
               && F.gtb (F.of_Z (unique_endpoints row))
                        (baseline_get (base_unique_endpoints baseline) (Fin 0)
                         * Fin (3 # 2))%f64)
              reasons "Accessing unusually high number of endpoints" in
  let reasons :=
    match reasons with
    | [] => reasons ++ [fallback_reason]
    | _ => reasons
    end in
  PyStr.join "; " reasons.

Definition is_normal (r : Row) : bool := String.eqb (anomaly_label r) "Normal".

Definition learn_baseline (df : Frame) : Baseline :=
  let normal_df := filter is_normal (rows df) in
  {| base_req_per_min :=
       series_mean (map (fun r => inject_Z (req_per_min r)) normal_df);
     base_error_rate := series_mean (map error_rate normal_df);
     base_avg_resp_time := series_mean (map avg_resp_time normal_df);
     base_avg_req_size :=
       if has_avg_req_size df
       then Some (series_mean (map avg_req_size normal_df))
       else None;
     base_unique_endpoints :=
       if has_unique_endpoints df
       then Some (series_mean
                    (map (fun r => inject_Z (unique_endpoints r)) normal_df))
       else None |}.

Definition generate_explanations (df : Frame) : result Explained :=
  let baseline := learn_baseline df in
  let deviation :=
    map (fun r => F.round2 (F.of_Z (req_per_min r) / base_req_per_min baseline)%f64)
        (rows df) in
  let explanation :=
    map (fun rd : Row * float64 =>
           if String.eqb (anomaly_label (fst rd)) "Anomaly"
           then explain_row df baseline (fst rd) (snd rd)
           else within_baseline)
        (combine (rows df) deviation) in
  Ok {| req_rate_deviation := deviation; explanation := explanation |}.

End Explainability.


(** ** feature_engineering.py: the aggregation *)

(** One line of the raw traffic log, with the columns of
    [traffic_generator.py]; the timestamp is parsed, in microseconds since
    the epoch. *)
Module Raw.

Record Event : Type := {
  timestamp : Z;
  ip : string;
  endpoint : string;
  method : string;
  status : Z;
  req_size : Z;
  resp_time : Z;
  user_agent : string
}.

End Raw.

(** ** traffic_generator.py *)

Module Simulator.

(** The module [random], as an oracle: each call of [random.choice] or
    [random.randint] consumes one draw, reduced to the range asked for. *)
Record Rng : Type := {
  draws : nat -> nat;
  pos : nat
}.

Definition Gen (A : Type) : Type := Rng -> A * Rng.

Definition ret {A : Type} (a : A) : Gen A := fun g => (a, g).

Definition gbind {A B : Type} (m : Gen A) (k : A -> Gen B) : Gen B :=
  fun g => let (a, g') := m g in k a g'.

Notation "x <~ m ;; k" := (gbind m (fun x => k))
  (at level 61, m at next level, right associativity).

Definition randbelow (n : nat) : Gen nat :=
  fun g => (Nat.modulo (draws g (pos g)) n,
            {| draws := draws g; pos := S (pos g) |}).

(** [random.choice(xs)], on a non-empty list. *)
Definition choice {A : Type} (default : A) (xs : list A) : Gen A :=
  i <~ randbelow (List.length xs) ;; ret (nth i xs default).

(** [random.randint(a, b)]: an integer of [a..b], both ends included. *)
Definition randint (a b : Z) : Gen Z :=
  i <~ randbelow (Z.to_nat (b - a + 1)) ;; ret (a + Z.of_nat i)%Z.

Definition IPS : list string :=
  map (fun i => ("10.0.0." ++ PyStr.str_of_nat i)%string) (seq 1 49).
Definition ENDPOINTS : list string :=
  ["/"; "/login"; "/api/data"; "/api/login"; "/admin"]%string.
Definition METHODS : list string := ["GET"; "POST"]%string.
Definition USER_AGENTS : list string :=
  ["Mozilla/5.0"; "Chrome/120.0"; "Safari/15.0"; "bot-agent"]%string.

Definition generate_normal_request (timestamp : Z) : Gen Raw.Event :=
  ip <~ choice EmptyString IPS ;;
  endpoint <~ choice EmptyString (removelast ENDPOINTS) ;;
  method <~ choice EmptyString METHODS ;;
  status <~ choice 0%Z [200; 200; 200; 404]%Z ;;
  req_size <~ randint 200 800 ;;
  resp_time <~ randint 80 250 ;;
  user_agent <~ choice EmptyString (removelast USER_AGENTS) ;;
  ret {| Raw.timestamp := timestamp; Raw.ip := ip; Raw.endpoint := endpoint;
         Raw.method := method; Raw.status := status;
         Raw.req_size := req_size; Raw.resp_time := resp_time;
         Raw.user_agent := user_agent |}.

Definition generate_attack_request (timestamp : Z) : Gen Raw.Event :=
  ip <~ choice EmptyString ["10.0.0.99"; "10.0.0.100"]%string ;;
  endpoint <~ choice EmptyString ["/login"; "/api/login"; "/admin"]%string ;;
  status <~ choice 0%Z [401; 403; 500]%Z ;;
  req_size <~ randint 900 2000 ;;
  resp_time <~ randint 300 800 ;;
  ret {| Raw.timestamp := timestamp; Raw.ip := ip; Raw.endpoint := endpoint;
         Raw.method := "POST"; Raw.status := status;
         Raw.req_size := req_size; Raw.resp_time := resp_time;
         Raw.user_agent := "bot-agent" |}.

Definition generate_stealth_attack (timestamp : Z) : Gen Raw.Event :=
  status <~ choice 0%Z [401; 403]%Z ;;
  req_size <~ randint 650 850 ;;
  resp_time <~ randint 220 350 ;;
  ret {| Raw.timestamp := timestamp; Raw.ip := "10.0.0.200";
         Raw.endpoint := "/api/login"; Raw.method := "POST";
         Raw.status := status;
         Raw.req_size := req_size; Raw.resp_time := resp_time;
         Raw.user_agent := "Mozilla/5.0" |}.

(** [for _ in range(n): rows.append(gen)] *)
Fixpoint append_n {A : Type} (n : nat) (gen : Gen A) (rows : list A)
  : Gen (list A) :=
  match n with
  | O => ret rows
  | S n' => a <~ gen ;; append_n n' gen (rows ++ [a])
  end.

(** [timedelta(minutes=1)], in microseconds. *)
Definition one_minute : Z := 60000000.

(** The body of the loop over [minute]. *)
Definition generate_minute (start_time : Z) (minute : nat)
           (rows : list Raw.Event) : Gen (list Raw.Event) :=
  let current_time := (start_time + Z.of_nat minute * one_minute)%Z in
  n <~ randint 30 60 ;;
  rows <~ append_n (Z.to_nat n) (generate_normal_request current_time) rows ;;
  rows <~ (if Nat.eqb (Nat.modulo minute 4) 0
           then m <~ randint 20 40 ;;
                append_n (Z.to_nat m) (generate_attack_request current_time) rows
           else ret rows) ;;
  (if Nat.leb 6 minute
   then a <~ generate_stealth_attack current_time ;; ret (rows ++ [a])
   else ret rows).

Fixpoint for_minutes (start_time : Z) (minutes : list nat)
         (rows : list Raw.Event) : Gen (list Raw.Event) :=
  match minutes with
  | [] => ret rows
  | minute :: rest =>
      rows <~ generate_minute start_time minute rows ;;
      for_minutes start_time rest rows
  end.

(** [generate_traffic(minutes)], started at [start_time = datetime.now()]. *)
Definition generate_traffic (minutes : nat) (start_time : Z)
  : Gen (list Raw.Event) :=
  for_minutes start_time (seq 0 minutes) [].

(** The three kinds of request, by what the generators fix. *)
Definition normal_shape (e : Raw.Event) : Prop :=
  In (Raw.ip e) IPS
  /\ In (Raw.endpoint e) ["/"; "/login"; "/api/data"; "/api/login"]%string
  /\ In (Raw.method e) METHODS
  /\ (Raw.status e = 200 \/ Raw.status e = 404)%Z
  /\ (200 <= Raw.req_size e <= 800)%Z
  /\ (80 <= Raw.resp_time e <= 250)%Z
  /\ In (Raw.user_agent e) ["Mozilla/5.0"; "Chrome/120.0"; "Safari/15.0"]%string.

Definition attack_shape (e : Raw.Event) : Prop :=
  In (Raw.ip e) ["10.0.0.99"; "10.0.0.100"]%string
  /\ In (Raw.endpoint e) ["/login"; "/api/login"; "/admin"]%string
  /\ Raw.method e = "POST"%string
  /\ In (Raw.status e) [401; 403; 500]%Z
  /\ (900 <= Raw.req_size e <= 2000)%Z
  /\ (300 <= Raw.resp_time e <= 800)%Z
  /\ Raw.user_agent e = "bot-agent"%string.

Definition stealth_shape (e : Raw.Event) : Prop :=
  Raw.ip e = "10.0.0.200"%string
  /\ Raw.endpoint e = "/api/login"%string
  /\ Raw.method e = "POST"%string
  /\ In (Raw.status e) [401; 403]%Z
  /\ (650 <= Raw.req_size e <= 850)%Z
  /\ (220 <= Raw.resp_time e <= 350)%Z
  /\ Raw.user_agent e = "Mozilla/5.0"%string.

(** A request of minute [minute] of a run started at [start_time]. *)
Definition in_minute (start_time : Z) (minute : nat) (e : Raw.Event) : Prop :=
  Raw.timestamp e = (start_time + Z.of_nat minute * one_minute)%Z
  /\ (normal_shape e
      \/ (attack_shape e /\ Nat.modulo minute 4 = 0%nat)
      \/ (stealth_shape e /\ (6 <= minute)%nat)).

Definition is_stealth (e : Raw.Event) : bool :=
  String.eqb (Raw.ip e) "10.0.0.200".

(** Whatever the oracle, the generator's result satisfies [P]. *)
Definition yields {A : Type} (m : Gen A) (P : A -> Prop) : Prop :=
  forall g, P (fst (m g)).

End Simulator.

Module Aggregation.

Definition minute : Z := 60000000.

(** [df["timestamp"].dt.floor("T")] *)
Definition time_window (t : Z) : Z := (t / minute * minute)%Z.

(** The grouping key of [df.groupby(["ip", "time_window"])]. *)
Definition key : Type := (string * Z)%type.

Definition key_of (e : Raw.Event) : key :=
  (Raw.ip e, time_window (Raw.timestamp e)).

Definition key_dec (k k' : key) : {k = k'} + {k <> k'}.
Proof. decide equality; [apply Z.eq_dec | apply string_dec]. Defined.

Definition key_eqb (k k' : key) : bool :=
  if key_dec k k' then true else false.

(** Keys are ordered by address, then by window. *)
Definition key_compare (k k' : key) : comparison :=
  match String.compare (fst k) (fst k') with
  | Eq => Z.compare (snd k) (snd k')
  | c => c
  end.

Fixpoint insert (k : key) (ks : list key) : list key :=
  match ks with
  | [] => [k]
  | k' :: rest =>
      match key_compare k k' with
      | Gt => k' :: insert k rest
      | _ => k :: ks
      end
  end.

Definition sort (ks : list key) : list key := fold_right insert [] ks.

(** The groups of the groupby: the distinct keys, in ascending order. *)
Definition group_keys (events : list Raw.Event) : list key :=
  sort (nodup key_dec (map key_of events)).

Definition group (events : list Raw.Event) (k : key) : list Raw.Event :=
  filter (fun e => key_eqb (key_of e) k) events.

(** The mean of a group's column; a group is never empty. *)
Definition mean (xs : list Z) : Q :=
  series_sum (map inject_Z xs) / inject_Z (Z.of_nat (List.length xs)).

(** [(x >= 400)] as the number pandas averages. *)
Definition is_error (status : Z) : Z := if (status >=? 400)%Z then 1%Z else 0%Z.

(** [nunique] *)
Definition nunique (xs : list string) : Z :=
  Z.of_nat (List.length (nodup string_dec xs)).

(** One row of [grouped.agg(...).reset_index()]. *)
Record Aggregate : Type := {
  agg_ip : string;
  agg_time_window : Z;
  agg_req_per_min : Z;
  agg_avg_resp_time : Q;
  agg_error_rate : Q;
  agg_avg_req_size : Q;
  agg_unique_endpoints : Z
}.

Definition aggregate_group (events : list Raw.Event) (k : key) : Aggregate :=
  let g := group events k in
  {| agg_ip := fst k;
     agg_time_window := snd k;
     agg_req_per_min := Z.of_nat (List.length (map Raw.ip g));
     agg_avg_resp_time := mean (map Raw.resp_time g);
     agg_error_rate := mean (map (fun e => is_error (Raw.status e)) g);
     agg_avg_req_size := mean (map Raw.req_size g);
     agg_unique_endpoints := nunique (map Raw.endpoint g) |}.

Definition aggregate (events : list Raw.Event) : list Aggregate :=
  map (aggregate_group events) (group_keys events).

(** One row of the feature file: the aggregate without its window, with
    the burst score. *)
Record FeatureVector : Type := {
  ip : string;
  req_per_min : Z;
  avg_resp_time : Q;
  error_rate : Q;
  avg_req_size : Q;
  unique_endpoints : Z;
  burst_score : float64
}.

(** The table written to [features.csv]. *)
Definition features (events : list Raw.Event) : list FeatureVector :=
  let agg := aggregate events in
  let burst := FeatureEngineering.burst_score_column (map agg_req_per_min agg) in
  map (fun ab : Aggregate * float64 =>
         {| ip := agg_ip (fst ab);
            req_per_min := agg_req_per_min (fst ab);
            avg_resp_time := agg_avg_resp_time (fst ab);
            error_rate := agg_error_rate (fst ab);
            avg_req_size := agg_avg_req_size (fst ab);
            unique_endpoints := agg_unique_endpoints (fst ab);
            burst_score := snd ab |})
      (combine agg burst).

End Aggregation.

(** ** dashboard/app.py: the data behind the views *)

Module Dashboard.

(** One row of the [data] dictionary of [load_live_traffic]. *)
Record Telemetry : Type := {
  timestamp : Z;
  ip : string;
  req_per_min : Z;
  risk_score : Q;
  lat : Q;
  lon : Q
}.

(** One row of the table [load_live_traffic] returns. *)
Record TrafficRow : Type := {
  telemetry : Telemetry;
  anomaly_label : string;
  explanation : string;
  recommended_action : string
}.

(** The two bytes pairs that follow ">3" in the source text. *)
Definition sigma_bytes : string :=
  String (ascii_of_nat 197) (String (ascii_of_nat 147)
    (String (ascii_of_nat 195) (String (ascii_of_nat 137) EmptyString))).

(** Lines 186-205: the three columns derived with [np.where]. *)
Definition annotate_row (t : Telemetry) : TrafficRow :=
  let label :=
    if F.gtb (Fin (risk_score t)) (Fin 8) then "Anomaly"%string
    else "Normal"%string in
  {| telemetry := t;
     anomaly_label := label;
     explanation :=
       if String.eqb label "Anomaly"
       then ("Traffic pattern deviates >3" ++ sigma_bytes
             ++ " from historical baseline.")%string
       else "Authorized traffic within standard operating parameters."%string;
     recommended_action :=
       if String.eqb label "Anomaly"
       then "BLOCK IP / ALERT WATCH OFFICER"%string
       else "MONITOR"%string |}.

Definition annotate (data : list Telemetry) : list TrafficRow :=
  map annotate_row data.

Definition is_anomaly (r : TrafficRow) : bool :=
  String.eqb (anomaly_label r) "Anomaly".

Definition is_normal_row (r : TrafficRow) : bool :=
  String.eqb (anomaly_label r) "Normal".

(** Lines 248-252: the table shown for a choice of the sidebar. *)
Definition view_df (scope : string) (df : list TrafficRow) : list TrafficRow :=
  if String.eqb scope "Active Threats Only" then filter is_anomaly df
  else if String.eqb scope "Normal Traffic" then filter is_normal_row df
  else df.

(** Lines 255-257 *)
Definition threat_count (df : list TrafficRow) : nat :=
  List.length (filter is_anomaly df).

Definition status_text (df : list TrafficRow) : string :=
  if Nat.ltb 0 (threat_count df)
  then ("HIGH ALERT: " ++ PyStr.str_of_nat (threat_count df)
        ++ " THREATS DETECTED")%string
  else "SYSTEM SECURE"%string.

(** The third KPI card, [len(df) - threat_count]. *)
Definition secure_count (df : list TrafficRow) : Z :=
  (Z.of_nat (List.length df) - Z.of_nat (threat_count df))%Z.

(** [Series.unique()]: the distinct values, in order of first appearance. *)
Fixpoint unique (xs : list string) : list string :=
  match xs with
  | [] => []
  | x :: rest => x :: filter (fun y => negb (String.eqb y x)) (unique rest)
  end.

(** Line 377: the addresses offered by the select box. *)
Definition target_list (df : list TrafficRow) : list string :=
  unique (map (fun r => ip (telemetry r)) (filter is_anomaly df)).

(** Line 381: [active_threats[active_threats["ip"] == selected_ip].iloc[0]];
    [None] stands for the [IndexError] of [iloc[0]] on an empty table. *)
Definition target_record (df : list TrafficRow) (selected_ip : string)
  : option TrafficRow :=
  match filter (fun r => String.eqb (ip (telemetry r)) selected_ip)
               (filter is_anomaly df) with
  | [] => None
  | record :: _ => Some record
  end.

End Dashboard.

(** The conditions of the five deviation checks of [explain_row], in the
    order of the source (lines 49, 54, 57, 60 and 63). *)
Definition rate_check (baseline : Baseline) (row : Row) : bool :=
  F.gtb (F.of_Z (req_per_min row)) (base_req_per_min baseline * Fin 2)%f64.

Definition error_check (baseline : Baseline) (row : Row) : bool :=
  F.gtb (Fin (error_rate row)) (base_error_rate baseline * Fin 2)%f64.

Definition latency_check (baseline : Baseline) (row : Row) : bool :=
  F.gtb (Fin (avg_resp_time row)) (base_avg_resp_time baseline * Fin (3 # 2))%f64.

Definition payload_check (df : Frame) (baseline : Baseline) (row : Row) : bool :=
  has_avg_req_size df
  && F.gtb (Fin (avg_req_size row))
           (baseline_get (base_avg_req_size baseline) (Fin 0) * Fin (3 # 2))%f64.

Definition endpoint_check (df : Frame) (baseline : Baseline) (row : Row) : bool :=
  has_unique_endpoints df
  && F.gtb (F.of_Z (unique_endpoints row))
           (baseline_get (base_unique_endpoints baseline) (Fin 0) * Fin (3 # 2))%f64.

(** ** The two risk formulas, as the specification words them *)

Module Spec.




(** The domain of a feature vector: counts and times are not negative and
    the error rate is a fraction. *)
Definition valid_features (r : Row) : Prop :=
  (0 <= req_per_min r)%Z /\ 0 <= avg_resp_time r
  /\ 0 <= error_rate r /\ error_rate r <= 1.

End Spec.

(** ** Sample batches *)

Module Sample.

Definition row (name : string) (req : Z) (resp err : Q) (burst : float64)
           (label : string) : Row :=
  {| ip := name; req_per_min := req; avg_resp_time := resp;
     error_rate := err; avg_req_size := 512; unique_endpoints := 3;
     burst_score := burst; anomaly_score := Fin 0;
     anomaly := if String.eqb label "Anomaly" then (-1)%Z else 1%Z;
     anomaly_label := label |}.

(** A quiet client and a bursting one, as in the scenario of the
    specification. *)
Definition quiet : Row := row "10.0.0.1" 40 (3 # 10) (1 # 50) (Fin 1) "Normal".
Definition burst : Row := row "10.0.0.2" 30 (3 # 10) (9 # 10) (Fin (3 # 4)) "Anomaly".
Definition batch : list Row := [quiet; burst].

(** Two clients whose every response took no measurable time. *)
Definition instant : list Row :=
  [row "10.0.0.3" 5 0 0 (Fin 1) "Normal";
   row "10.0.0.4" 3 0 (1 # 3) (Fin (3 # 5)) "Normal"].

(** A client whose error rate lies outside the domain. *)
Definition out_of_domain : list Row :=
  [row "10.0.0.5" 10 1 2 (Fin 1) "Anomaly"].

(** The two batches as the explainer reads them, and a batch in which the
    model flagged every record. *)
Definition frame : Frame :=
  {| rows := batch; has_avg_req_size := true; has_unique_endpoints := true |}.

Definition all_flagged : Frame :=
  {| rows := [burst; row "10.0.0.9" 90 (7 # 10) (1 # 2) (Fin 1) "Anomaly"];
     has_avg_req_size := true; has_unique_endpoints := true |}.

(** A float in positional notation with at most two decimals, the way
    Python prints the rounded deviations of ordinary magnitude. *)
Definition digits (z : Z) : string :=
  NilZero.string_of_uint (N.to_uint (Z.to_N z)).

Definition format_fixed (x : float64) : string :=
  match x with
  | NaN => "nan"
  | PInf => "inf"
  | NInf => "-inf"
  | Fin q =>
      let cents := F.rint (q * 100) in
      let a := Z.abs cents in
      let frac := (a mod 100)%Z in
      ((if (cents <? 0)%Z then "-" else "")
       ++ digits (a / 100) ++ "."
       ++ digits (frac / 10)
       ++ (if (frac mod 10 =? 0)%Z then "" else digits (frac mod 10)))%string
  end.

(** A short raw log: two requests of one client within a minute, one of
    them failing, and a request of another client in the next minute. *)
Definition event (t : Z) (addr path : string) (code size time : Z) : Raw.Event :=
  {| Raw.timestamp := t; Raw.ip := addr; Raw.endpoint := path;
     Raw.method := "GET"; Raw.status := code; Raw.req_size := size;
     Raw.resp_time := time; Raw.user_agent := "Mozilla/5.0" |}.

Definition log : list Raw.Event :=
  [event 120000000 "10.0.0.7" "/login" 200 300 100;
   event 185000000 "10.0.0.3" "/" 200 250 90;
   event 150000000 "10.0.0.7" "/admin" 500 500 200].

(** An oracle for the traffic generator: the n-th random draw is n. *)
Definition oracle : Simulator.Rng :=
  {| Simulator.draws := fun n => n; Simulator.pos := 0 |}.

(** An estimator that records the labels of its training matrix, as the
    library does, and answers like [model]. *)
Definition fit (X : Inference.DataFrame) : Inference.ScoringModel :=
  {| Inference.feature_names_in_ := Some (Inference.columns X);
     Inference.decision_function := fun X => map (fun _ => Fin (-1 # 10)) X;
     Inference.predict := fun X => [(-1)%Z] |}.

(** A feature table that has lost its identifier column. *)
Definition incomplete_without_ip : Inference.DataFrame :=
  [("error_rate", [Inference.CFloat (Fin (9 # 10))]);
   ("req_per_min", [Inference.CInt 30])]%string.

(** Three rows of dashboard telemetry, two of them above the threshold. *)
Definition telemetry : list Dashboard.Telemetry :=
  [{| Dashboard.timestamp := 0; Dashboard.ip := "10.1.2.3";
      Dashboard.req_per_min := 2500; Dashboard.risk_score := 91 # 10;
      Dashboard.lat := 19; Dashboard.lon := 72 |};
   {| Dashboard.timestamp := (-5000000); Dashboard.ip := "10.4.5.6";
      Dashboard.req_per_min := 40; Dashboard.risk_score := 8;
      Dashboard.lat := 13; Dashboard.lon := 80 |};
   {| Dashboard.timestamp := (-10000000); Dashboard.ip := "10.1.2.3";
      Dashboard.req_per_min := 900; Dashboard.risk_score := 85 # 10;
      Dashboard.lat := 9; Dashboard.lon := 76 |}].

(** A fitted model over two features, and the answers it gives on one
    row. *)
Definition model : Inference.ScoringModel :=
  {| Inference.feature_names_in_ := Some ["req_per_min"; "error_rate"]%string;
     Inference.decision_function := fun X => map (fun _ => Fin (-1 # 10)) X;
     Inference.predict := fun X => [(-1)%Z] |}.

(** A feature table with an identifier column, its features in another
    order than the schema. *)
Definition features : Inference.DataFrame :=
  [("ip", [Inference.CStr "10.0.0.2"]);
   ("error_rate", [Inference.CFloat (Fin (9 # 10))]);
   ("burst_score", [Inference.CFloat (Fin (3 # 4))]);
   ("req_per_min", [Inference.CInt 30])]%string.

(** The same table, its columns in another order. *)
Definition features_reordered : Inference.DataFrame :=
  [("req_per_min", [Inference.CInt 30]);
   ("burst_score", [Inference.CFloat (Fin (3 # 4))]);
   ("ip", [Inference.CStr "10.0.0.2"]);
   ("error_rate", [Inference.CFloat (Fin (9 # 10))])]%string.

(** The same table without two features of the schema. *)
Definition incomplete : Inference.DataFrame :=
  [("ip", [Inference.CStr "10.0.0.2"]);
   ("burst_score", [Inference.CFloat (Fin (3 # 4))])]%string.

End Sample.

(** * Properties *)

(** ** Numbers *)

Lemma Qcompare_zero_Eq (a : Q) : a == 0 -> (a ?= 0) = Eq.
Proof. intros H. now apply Qeq_alt. Qed.

Lemma Qcompare_pos_Gt (a : Q) : 0 < a -> (a ?= 0) = Gt.
Proof. intros H. now apply Qgt_alt. Qed.

Lemma series_max_cons (x : Q) (xs : list Q) :
  exists m, series_max (x :: xs) = Fin m.
Proof. simpl. destruct (series_max xs); eauto. Qed.

Lemma series_max_nonempty (xs : list Q) :
  xs <> [] -> exists m, series_max xs = Fin m.
Proof. destruct xs as [|x xs]; [congruence | intros _; apply series_max_cons]. Qed.

Lemma series_max_empty (xs : list Q) (v : float64) :
  series_max xs = v -> F.is_finite v = false -> xs = [].
Proof.
  destruct xs as [|x xs]; [reflexivity|].
  destruct (series_max_cons x xs) as [m ->]. intros <-. discriminate.
Qed.

(** The maximum is an upper bound of the column. *)
Lemma series_max_upper (xs : list Q) (m : Q) :
  series_max xs = Fin m -> forall x, In x xs -> x <= m.
Proof.
  revert m. induction xs as [|y ys IH]; intros m Hm x Hin; [destruct Hin|].
  simpl in Hm. destruct (series_max ys) as [m'| | |] eqn:E.
  - injection Hm as <-. destruct Hin as [<- | Hin].
    + destruct (Qcompare_spec y m'); lra.
    + specialize (IH m' eq_refl x Hin).
      destruct (Qcompare_spec y m'); lra.
  - injection Hm as <-. destruct Hin as [<- | Hin]; [lra|].
    rewrite (series_max_empty _ _ E eq_refl) in Hin. destruct Hin.
  - injection Hm as <-. destruct Hin as [<- | Hin]; [lra|].
    rewrite (series_max_empty _ _ E eq_refl) in Hin. destruct Hin.
  - injection Hm as <-. destruct Hin as [<- | Hin]; [lra|].
    rewrite (series_max_empty _ _ E eq_refl) in Hin. destruct Hin.
Qed.

(** The maximum is one of the cells. *)
Lemma series_max_In (xs : list Q) (m : Q) :
  series_max xs = Fin m -> In m xs.
Proof.
  revert m. induction xs as [|y ys IH]; intros m Hm; [discriminate|].
  simpl in Hm. destruct (series_max ys) as [m'| | |] eqn:E;
    injection Hm as <-; try (now left).
  destruct (y ?= m'); [now left | right; now apply IH | now left].
Qed.


Lemma rint_Z (z : Z) : F.rint (inject_Z z) = z.
Proof.
  unfold F.rint. rewrite Qfloor_Z.
  destruct (Qcompare_spec (inject_Z z - inject_Z z) (1 # 2)); [lra | reflexivity | lra].
Qed.

(** [rint] stays between the floor and the floor plus one. *)
Lemma rint_floor (q : Q) :
  (Qfloor q <= F.rint q <= Qfloor q + 1)%Z.
Proof.
  unfold F.rint.
  destruct (q - inject_Z (Qfloor q) ?= 1 # 2); [destruct (Z.even _)| |]; lia.
Qed.

Lemma rint_le_Z (q : Q) (n : Z) : q <= inject_Z n -> (F.rint q <= n)%Z.
Proof.
  intros H. unfold F.rint.
  pose proof (Qfloor_le q) as Hfl.
  pose proof (Qfloor_resp_le _ _ H) as Hm. rewrite Qfloor_Z in Hm.
  destruct (Z.eq_dec (Qfloor q) n) as [E|E].
  - destruct (Qcompare_spec (q - inject_Z (Qfloor q)) (1 # 2));
      rewrite E in *; first [lia | lra].
  - destruct (q - inject_Z (Qfloor q) ?= 1 # 2); [destruct (Z.even _)| |]; lia.
Qed.

Lemma rint_ge_Z (q : Q) (n : Z) : inject_Z n <= q -> (n <= F.rint q)%Z.
Proof.
  intros H. pose proof (Qfloor_resp_le _ _ H) as Hm. rewrite Qfloor_Z in Hm.
  pose proof (rint_floor q). lia.
Qed.

(** On a non-negative rational, truncation toward zero is the floor. *)
Lemma truncate_nonneg (q : Q) : 0 <= q -> F.truncate q = Qfloor q.
Proof.
  destruct q as [n d]. unfold Qle, F.truncate, Qfloor. simpl. intros H.
  apply Z.quot_div_nonneg; lia.
Qed.

Lemma Qdiv_unit_interval (a m : Q) :
  0 <= a -> a <= m -> 0 < m -> 0 <= a / m /\ a / m <= 1.
Proof.
  intros Ha Ham Hm. split.
  - apply Qle_shift_div_l; lra.
  - apply Qle_shift_div_r; lra.
Qed.

(** ** The composite policy *)

Lemma inject_Z_pos_compare (z : Z) (m : Q) :
  0 < m -> (F.of_Z z / Fin m)%f64 = Fin (inject_Z z / m).
Proof. intros H. unfold F.of_Z, F.div. now rewrite (Qcompare_pos_Gt _ H). Qed.

Lemma div_pos (a m : Q) : 0 < m -> (Fin a / Fin m)%f64 = Fin (a / m).
Proof. intros H. unfold F.div. now rewrite (Qcompare_pos_Gt _ H). Qed.




(** A cell divided by the maximum of its column: a fraction of one, or
    [NaN] when the maximum is zero. *)
Lemma normalised_fraction (a : Q) (xs : list Q) :
  In a xs -> 0 <= a ->
  (Fin a / series_max xs)%f64 = NaN
  \/ exists q, (Fin a / series_max xs)%f64 = Fin q /\ 0 <= q /\ q <= 1.
Proof.
  intros Hin Ha.
  destruct (series_max_nonempty xs) as [m Hm].
  { intros ->. destruct Hin. }
  pose proof (series_max_upper _ _ Hm _ Hin) as Hle.
  rewrite Hm. unfold F.div.
  destruct (Qcompare_spec m 0) as [E | E | E].
  - left. rewrite Qcompare_zero_Eq by lra. reflexivity.
  - lra.
  - right. exists (a / m). split; [reflexivity|].
    now apply Qdiv_unit_interval.
Qed.

(** A cell divided by a zero maximum is never a number. *)
Lemma normalised_by_zero (a m : Q) (xs : list Q) :
  series_max xs = Fin m -> m == 0 -> In a xs ->
  F.is_finite (Fin a / series_max xs)%f64 = false
  /\ (0 <= a -> (Fin a / series_max xs)%f64 = NaN).
Proof.
  intros Hm Hz Hin.
  pose proof (series_max_upper _ _ Hm _ Hin) as Hle.
  rewrite Hm. unfold F.div. rewrite (Qcompare_zero_Eq _ Hz). split.
  - now destruct (a ?= 0).
  - intros Ha. rewrite Qcompare_zero_Eq by lra. reflexivity.
Qed.

Lemma round2_bounds (q : Q) :
  0 <= q -> q <= 10 ->
  exists q', F.round2 (Fin q) = Fin q' /\ 0 <= q' /\ q' <= 10.
Proof.
  intros H0 H10. simpl. eexists. split; [reflexivity|].
  assert (Hlo : (0 <= F.rint (q * 100))%Z).
  { apply rint_ge_Z. change (inject_Z 0) with 0. lra. }
  assert (Hhi : (F.rint (q * 100) <= 1000)%Z).
  { apply rint_le_Z. change (inject_Z 1000) with 1000. lra. }
  unfold Qle. simpl. lia.
Qed.

Lemma in_risk_score (df : list Row) (s : float64) :
  In s (MlEngine.compute_risk_score df) ->
  exists r, In r df
    /\ s = F.round2
             ((Fin (inject_Z (req_per_min r))
               / series_max (map (fun r => inject_Z (req_per_min r)) df)) * Fin 4
              + Fin (error_rate r) * Fin 4
              + (Fin (avg_resp_time r) / series_max (map avg_resp_time df)) * Fin 2)%f64.
Proof.
  unfold MlEngine.compute_risk_score. intros H.
  apply in_map_iff in H as (r & <- & Hr). now exists r.
Qed.

(** On feature vectors of the domain, a composite risk score is [NaN] or a
    number of the interval [0,10]. *)
Lemma risk_score_range (df : list Row) :
  Forall Spec.valid_features df ->
  forall s, In s (MlEngine.compute_risk_score df) ->
            s = NaN \/ exists q, s = Fin q /\ 0 <= q /\ q <= 10.
Proof.
  intros Hv s Hs. apply in_risk_score in Hs as (r & Hr & ->).
  rewrite Forall_forall in Hv. destruct (Hv r Hr) as (Hreq & Hresp & He0 & He1).
  assert (Hq : 0 <= inject_Z (req_per_min r)).
  { change 0 with (inject_Z 0). now rewrite <- Zle_Qle. }
  destruct (normalised_fraction (inject_Z (req_per_min r))
              (map (fun r => inject_Z (req_per_min r)) df)) as [-> | (x & -> & Hx0 & Hx1)];
    [now apply (in_map (fun r => inject_Z (req_per_min r))) | assumption | now left |].
  destruct (normalised_fraction (avg_resp_time r) (map avg_resp_time df))
    as [-> | (y & -> & Hy0 & Hy1)];
    [now apply in_map | assumption | now left |].
  right. cbn [F.mul F.add]. apply round2_bounds; nra.
Qed.

Ltac q_order := unfold Qle, Qlt; simpl; lia.

Lemma sample_batch_valid : Forall Spec.valid_features Sample.batch.
Proof.
  repeat constructor; unfold Spec.valid_features; simpl; try lia; q_order.
Defined.

Lemma sample_instant_valid : Forall Spec.valid_features Sample.instant.
Proof.
  repeat constructor; unfold Spec.valid_features; simpl; try lia; q_order.
Defined.

Lemma gtb_10_false (s : float64) :
  (s = NaN \/ exists q, s = Fin q /\ 0 <= q /\ q <= 10) ->
  F.gtb s (Fin 10) = false.
Proof.
  intros [-> | (q & -> & _ & H)]; [reflexivity|].
  unfold F.gtb, F.ltb. destruct (Qcompare_spec 10 q); [reflexivity | lra | reflexivity].
Qed.

(** C3, as the code has it: the composite risk score is not clamped, yet on
    feature vectors with error_rate in [0,1] and non-negative request counts
    and response times it never exceeds 10: each score is [NaN] or a number
    of [0,10]. *)
Theorem composite_risk_at_most_10 :
  forall (df : list Row) (s : float64),
    Forall Spec.valid_features df ->
    In s (MlEngine.compute_risk_score df) ->
    F.gtb s (Fin 10) = false
    /\ (s = NaN \/ exists q, s = Fin q /\ 0 <= q /\ q <= 10).
Proof.
  intros df s Hv Hs. pose proof (risk_score_range df Hv s Hs) as H.
  split; [now apply gtb_10_false | exact H].
Qed.

Lemma composite_risk_at_most_10_witness :
  F.gtb (Fin (860 # 100)) (Fin 10) = false
  /\ (Fin (860 # 100) = NaN
      \/ exists q, Fin (860 # 100) = Fin q /\ 0 <= q /\ q <= 10).
Proof.
  apply (composite_risk_at_most_10 Sample.batch).
  - exact sample_batch_valid.
  - simpl. right. left. reflexivity.
Defined.

(** C3, as stated, fails: no batch of the domain has a score above 10. *)
Lemma composite_risk_never_exceeds_10 :
  ~ exists (df : list Row) (s : float64),
      Forall Spec.valid_features df
      /\ In s (MlEngine.compute_risk_score df)
      /\ F.gtb s (Fin 10) = true.
Proof.
  intros (df & s & Hv & Hs & Hgt).
  rewrite (gtb_10_false s (risk_score_range df Hv s Hs)) in Hgt. discriminate.
Qed.

(** The bound is reached, and nothing clamps a score computed from an error
    rate outside [0,1]. *)
Example composite_risk_reaches_10 :
  MlEngine.compute_risk_score [Sample.row "10.0.0.6" 7 2 1 (Fin 1) "Anomaly"]
  = [Fin (1000 # 100)].
Proof. reflexivity. Qed.

Example composite_risk_not_clamped :
  MlEngine.compute_risk_score Sample.out_of_domain = [Fin (1400 # 100)].
Proof. reflexivity. Qed.

(** ** Division by a zero maximum *)

Lemma not_finite_risk (x y : float64) (e : Q) :
  F.is_finite x = false \/ F.is_finite y = false ->
  F.is_finite (F.round2 (x * Fin 4 + Fin e * Fin 4 + y * Fin 2)%f64) = false.
Proof.
  intros [H | H]; destruct x, y; try discriminate H; reflexivity.
Qed.

Lemma in_burst_score (req : list Z) (b : float64) :
  In b (FeatureEngineering.burst_score_column req) ->
  exists r, In r req
    /\ b = (Fin (inject_Z r) / series_max (map inject_Z req))%f64.
Proof.
  unfold FeatureEngineering.burst_score_column. intros H.
  apply in_map_iff in H as (r & <- & Hr). now exists r.
Qed.

(** C9, as stated, fails: with every response time zero the batch maximum
    is zero and each risk score is [NaN]; a burst score over a zero maximum
    is [NaN] as well. *)
Lemma zero_maximum_gives_nan :
  series_max (map avg_resp_time Sample.instant) = Fin 0
  /\ MlEngine.compute_risk_score Sample.instant = [NaN; NaN]
  /\ series_max (map inject_Z [0; 0]%Z) = Fin 0
  /\ FeatureEngineering.burst_score_column [0; 0]%Z = [NaN; NaN].
Proof. repeat split; reflexivity. Qed.

(** C9, as the code has it: a zero batch maximum is not guarded.  The
    division is carried out, no exception arises, and the result is never a
    number: every burst score of the batch, and every composite risk score
    of a batch one of whose two maxima is zero, is [NaN] or an infinity;
    on non-negative cells it is [NaN]. *)
Theorem zero_maximum_not_guarded :
  forall (req : list Z) (df : list Row) (m : Q),
    m == 0 ->
    (series_max (map inject_Z req) = Fin m ->
     forall b, In b (FeatureEngineering.burst_score_column req) ->
               F.is_finite b = false
               /\ (Forall (fun r => (0 <= r)%Z) req -> b = NaN))
    /\ (series_max (map (fun r => inject_Z (req_per_min r)) df) = Fin m
        \/ series_max (map avg_resp_time df) = Fin m ->
        forall s, In s (MlEngine.compute_risk_score df) ->
                  F.is_finite s = false
                  /\ (Forall Spec.valid_features df -> s = NaN)).
Proof.
  intros req df m Hz. split.
  - intros Hm b Hb. apply in_burst_score in Hb as (r & Hr & ->).
    destruct (normalised_by_zero (inject_Z r) m (map inject_Z req) Hm Hz
                (in_map inject_Z req r Hr)) as [Hnf Hnan].
    split; [exact Hnf|]. intros Hpos. apply Hnan.
    rewrite Forall_forall in Hpos. specialize (Hpos r Hr).
    change 0 with (inject_Z 0). now rewrite <- Zle_Qle.
  - intros Hm s Hs.
    assert (Hnf : F.is_finite s = false).
    { apply in_risk_score in Hs as (r & Hr & ->). apply not_finite_risk.
      destruct Hm as [Hm | Hm]; [left | right].
      - apply (normalised_by_zero _ m _ Hm Hz).
        now apply (in_map (fun r => inject_Z (req_per_min r))).
      - apply (normalised_by_zero _ m _ Hm Hz). now apply in_map. }
    split; [exact Hnf|]. intros Hv.
    destruct (risk_score_range df Hv s Hs) as [-> | (q & -> & _)];
      [reflexivity | discriminate Hnf].
Qed.

Lemma zero_maximum_not_guarded_witness :
  (forall b, In b (FeatureEngineering.burst_score_column [0; 0]%Z) ->
             F.is_finite b = false
             /\ (Forall (fun r => (0 <= r)%Z) [0; 0]%Z -> b = NaN))
  /\ (forall s, In s (MlEngine.compute_risk_score Sample.instant) ->
                F.is_finite s = false
                /\ (Forall Spec.valid_features Sample.instant -> s = NaN)).
Proof.
  destruct (zero_maximum_not_guarded [0; 0]%Z Sample.instant 0 (Qeq_refl 0))
    as [Hb Hs].
  split.
  - apply Hb. reflexivity.
  - apply Hs. right. reflexivity.
Defined.

(** ** Severity *)

(** C5: under each policy taken alone, the severity does not decrease when
    the risk score grows, in the order Low < Medium < High. *)
Theorem severity_monotone :
  forall (a b : float64) (x y : Z),
    (F.leb a b = true ->
     severity_le (MlEngine.severity a) (MlEngine.severity b))
    /\ ((x <= y)%Z ->
        severity_le (RuleEngine.assign_severity x) (RuleEngine.assign_severity y)).
Proof.
  intros a b x y. split.
  - intros Hab. unfold MlEngine.severity, F.geb, severity_le.
    destruct a as [p| | |], b as [q| | |]; simpl in Hab; try discriminate Hab;
      simpl; try lia.
    + destruct (Qcompare_spec p q); try discriminate Hab;
        destruct (Qcompare_spec 7 p), (Qcompare_spec 7 q),
                 (Qcompare_spec 4 p), (Qcompare_spec 4 q);
        simpl; try lia; lra.
    + destruct (7 ?= p), (4 ?= p); simpl; lia.
  - intros Hxy. unfold RuleEngine.assign_severity, severity_le.
    destruct (Z.geb_spec x 70), (Z.geb_spec y 70),
             (Z.geb_spec x 40), (Z.geb_spec y 40); simpl; lia.
Qed.

Lemma severity_monotone_witness :
  severity_le (MlEngine.severity (Fin (608 # 100)))
              (MlEngine.severity (Fin (860 # 100)))
  /\ severity_le (RuleEngine.assign_severity 50) (RuleEngine.assign_severity 73).
Proof.
  destruct (severity_monotone (Fin (608 # 100)) (Fin (860 # 100)) 50 73)
    as [Hf Hz].
  split.
  - apply Hf. reflexivity.
  - apply Hz. lia.
Defined.

(** ** The weighted-cap policy *)

Lemma py_min_Fin (x y : Q) :
  exists z, F.py_min (Fin x) (Fin y) = Fin z /\ z == Qmin x y.
Proof.
  unfold F.py_min, F.ltb.
  destruct (Qcompare_spec y x) as [E | E | E]; eexists; (split; [reflexivity|]).
  - symmetry. apply Q.min_l. lra.
  - symmetry. apply Q.min_r. lra.
  - symmetry. apply Q.min_l. lra.
Qed.




(** Below the domain nothing raises the result to zero, and a [NaN] burst
    score (a zero batch maximum upstream) makes [int] fail. *)
Example calculate_risk_negative_input :
  RuleEngine.calculate_risk
    (Sample.row "10.0.0.7" 0 0 (-1) (Fin 0) "Normal") = Ok (-40)%Z.
Proof. reflexivity. Qed.

Example calculate_risk_nan_burst :
  RuleEngine.calculate_risk (Sample.row "10.0.0.8" 0 0 0 NaN "Normal")
  = Raise (ValueError "cannot convert float NaN to integer").
Proof. reflexivity. Qed.

(** ** Schema-bound inference *)

Section InferenceFacts.

Import Inference.

Lemma mem_In (label : string) (labels : list string) :
  mem label labels = true <-> In label labels.
Proof.
  unfold mem. rewrite existsb_exists. split.
  - intros (x & Hx & E). apply String.eqb_eq in E. now subst.
  - intros H. exists label. split; [assumption | apply String.eqb_refl].
Qed.

Lemma mem_false (label : string) (labels : list string) :
  mem label labels = false <-> ~ In label labels.
Proof.
  rewrite <- mem_In. destruct (mem label labels); split; congruence.
Qed.

(** The list computed on line 61 holds the schema labels absent from the
    table, and nothing else. *)
Lemma missing_spec (df : DataFrame) (schema : list string) (c : string) :
  In c (filter (fun col => negb (mem col (columns df))) schema)
  <-> In c schema /\ ~ In c (columns df).
Proof.
  rewrite filter_In, negb_true_iff, mem_false. reflexivity.
Qed.

Lemma missing_nil (df : DataFrame) (schema : list string) :
  incl schema (columns df) ->
  filter (fun col => negb (mem col (columns df))) schema = [].
Proof.
  intros Hincl.
  destruct (filter _ schema) as [|c rest] eqn:E; [reflexivity|].
  assert (Hc : In c (c :: rest)) by now left.
  rewrite <- E in Hc. apply missing_spec in Hc as [Hin Hout].
  elim Hout. now apply Hincl.
Qed.

(** In a table with distinct labels a label selects one column. *)
Lemma filter_label_unique (df : DataFrame) (l : string) :
  NoDup (columns df) -> In l (columns df) ->
  exists data, filter (fun c => String.eqb (fst c) l) df = [(l, data)]
               /\ In (l, data) df.
Proof.
  induction df as [|[k d] df IH]; intros Hnd Hin; [destruct Hin|].
  unfold columns in *. simpl in *. inversion Hnd as [|? ? Hk Hnd']; subst.
  destruct (String.eqb_spec k l) as [-> | Hne].
  - exists d. split; [|now left]. f_equal.
    destruct (filter _ df) as [|[k' d'] rest] eqn:E; [reflexivity|].
    assert (Hc : In (k', d') ((k', d') :: rest)) by now left.
    rewrite <- E in Hc. apply filter_In in Hc as [Hc Ek].
    simpl in Ek. apply String.eqb_eq in Ek. subst k'.
    elim Hk. now apply (in_map fst) in Hc.
  - destruct Hin as [E | Hin]; [congruence|].
    destruct (IH Hnd' Hin) as (data & Hf & Hd).
    exists data. split; [exact Hf | now right].
Qed.

Lemma getitem_superset (df : DataFrame) (schema : list string) :
  NoDup (columns df) -> incl schema (columns df) ->
  exists X, getitem df schema = Ok X
            /\ columns X = schema
            /\ incl X df.
Proof.
  intros Hnd Hincl. unfold getitem.
  destruct (find _ schema) as [l|] eqn:E.
  { apply find_some in E as [Hl Hout].
    apply negb_true_iff, mem_false in Hout. elim Hout. now apply Hincl. }
  eexists. split; [reflexivity|]. clear E.
  induction schema as [|l schema IH]; [split; [reflexivity | intros ? []]|].
  destruct IH as [IHc IHi]. { intros c Hc. apply Hincl. now right. }
  destruct (filter_label_unique df l Hnd) as (data & Hf & Hd).
  { apply Hincl. now left. }
  simpl. rewrite Hf. split.
  - unfold columns in *. simpl. now rewrite IHc.
  - intros c [<- | Hc]; [assumption | now apply IHi].
Qed.

End InferenceFacts.

(** C1: with a declared schema, a table lacking one or more schema columns
    makes [run_anomaly_detection] raise, and the exception lists the schema
    columns absent from the table, those and no others, in schema order. *)
Theorem missing_columns_rejected :
  forall (model : Inference.ScoringModel) (schema : list string)
         (df : Inference.DataFrame),
    Inference.feature_names_in_ model = Some schema ->
    (exists c, In c schema /\ ~ In c (Inference.columns df)) ->
    exists missing,
      Inference.run_anomaly_detection model df
      = Raise (ValueError_missing_columns missing)
      /\ missing
         = filter (fun c => negb (Inference.mem c (Inference.columns df))) schema
      /\ forall c, In c missing
                   <-> In c schema /\ ~ In c (Inference.columns df).
Proof.
  intros model schema df Hschema (c & Hc).
  exists (filter (fun c => negb (Inference.mem c (Inference.columns df))) schema).
  split; [|split; [reflexivity | intros c'; apply missing_spec]].
  unfold Inference.run_anomaly_detection, Inference.select_features.
  rewrite Hschema. apply missing_spec in Hc.
  destruct (filter _ schema); [destruct Hc | reflexivity].
Qed.

Lemma missing_columns_rejected_witness :
  exists missing,
    Inference.run_anomaly_detection Sample.model Sample.incomplete
    = Raise (ValueError_missing_columns missing)
    /\ missing = ["req_per_min"; "error_rate"]%string
    /\ forall c, In c missing
                 <-> In c ["req_per_min"; "error_rate"]%string
                     /\ ~ In c (Inference.columns Sample.incomplete).
Proof.
  apply (missing_columns_rejected Sample.model
           ["req_per_min"; "error_rate"]%string Sample.incomplete).
  - reflexivity.
  - exists "req_per_min"%string. split; [now left|].
    simpl. intros [H | [H | H]]; [discriminate H | discriminate H | exact H].
Defined.

(** C8: with a declared schema and a table (of distinct column labels) that
    has every schema column and possibly more, inference succeeds; the
    matrix given to [decision_function] and [predict] has the schema as its
    column labels, in schema order, each column taken from the table; the
    other columns do not reach the model. *)
Theorem superset_columns_selected :
  forall (model : Inference.ScoringModel) (schema : list string)
         (df : Inference.DataFrame),
    Inference.feature_names_in_ model = Some schema ->
    NoDup (Inference.columns df) ->
    incl schema (Inference.columns df) ->
    exists X,
      Inference.select_features model df = Ok X
      /\ Inference.columns X = schema
      /\ incl X df
      /\ Inference.run_anomaly_detection model df
         = Ok (Inference.setitem
                 (Inference.setitem
                    (Inference.setitem df "anomaly_score"
                       (map Inference.CFloat (Inference.decision_function model X)))
                    "anomaly" (map Inference.CInt (Inference.predict model X)))
                 "anomaly_label"
                 (map (fun x => Inference.CStr (Inference.anomaly_label_of x))
                      (Inference.predict model X))).
Proof.
  intros model schema df Hschema Hnd Hincl.
  destruct (getitem_superset df schema Hnd Hincl) as (X & HX & Hcols & Hsub).
  assert (Hsel : Inference.select_features model df = Ok X).
  { unfold Inference.select_features.
    rewrite Hschema, (missing_nil df schema Hincl). exact HX. }
  exists X. repeat split; try assumption.
  unfold Inference.run_anomaly_detection. rewrite Hsel. reflexivity.
Qed.

Lemma superset_columns_selected_witness :
  exists X,
    Inference.select_features Sample.model Sample.features = Ok X
    /\ Inference.columns X = ["req_per_min"; "error_rate"]%string
    /\ incl X Sample.features
    /\ Inference.run_anomaly_detection Sample.model Sample.features
       = Ok (Inference.setitem
               (Inference.setitem
                  (Inference.setitem Sample.features "anomaly_score"
                     (map Inference.CFloat
                          (Inference.decision_function Sample.model X)))
                  "anomaly"
                  (map Inference.CInt (Inference.predict Sample.model X)))
               "anomaly_label"
               (map (fun x => Inference.CStr (Inference.anomaly_label_of x))
                    (Inference.predict Sample.model X))).
Proof.
  apply (superset_columns_selected Sample.model
           ["req_per_min"; "error_rate"]%string Sample.features).
  - reflexivity.
  - simpl. repeat (constructor; [simpl; intuition discriminate|]). constructor.
  - intros c [<- | [<- | []]]; simpl; auto 6.
Defined.

(** What the selection keeps on the sample table: the two schema columns,
    reordered, without [ip] and [burst_score]. *)
Example select_features_sample :
  Inference.select_features Sample.model Sample.features
  = Ok [("req_per_min", [Inference.CInt 30]);
        ("error_rate", [Inference.CFloat (Fin (9 # 10))])]%string.
Proof. reflexivity. Qed.

(** A model without the schema attribute is refused before anything else. *)
Example no_schema_rejected :
  forall df,
    exists msg,
      Inference.run_anomaly_detection
        {| Inference.feature_names_in_ := None;
           Inference.decision_function := fun _ => [];
           Inference.predict := fun _ => [] |} df
      = Raise (RuntimeError msg).
Proof. intros df. eexists. reflexivity. Qed.

(** ** Strings *)

Section StringFacts.

Import PyStr.
Local Open Scope string_scope.

Lemma append_nil_r (s : string) : s ++ "" = s.
Proof. induction s as [|c s IH]; simpl; [reflexivity | now rewrite IH]. Qed.

Lemma append_assoc (a b c : string) : (a ++ b) ++ c = a ++ b ++ c.
Proof. induction a as [|x a IH]; simpl; [reflexivity | now rewrite IH]. Qed.

Lemma lower_app (a b : string) : lower (a ++ b) = lower a ++ lower b.
Proof. induction a as [|x a IH]; simpl; [reflexivity | now rewrite IH]. Qed.

Lemma free_of_app (c : ascii) (a b : string) :
  free_of c (a ++ b) = free_of c a && free_of c b.
Proof.
  induction a as [|x a IH]; simpl; [reflexivity|].
  now rewrite IH, andb_assoc.
Qed.

(** A joined list starts with its first element. *)
Lemma join_cons (sep x : string) (xs : list string) :
  join sep (x :: xs)
  = x ++ match xs with
         | [] => ""
         | _ :: _ => sep ++ join sep xs
         end.
Proof. destruct xs; simpl; [now rewrite append_nil_r | reflexivity]. Qed.

(** A needle cannot start inside a stretch that lacks its first byte. *)
Lemma contains_skip (c : ascii) (needle p rest : string) :
  free_of c p = true ->
  contains (String c needle) (p ++ rest) = contains (String c needle) rest.
Proof.
  induction p as [|a p IH]; intros Hfree; [reflexivity|].
  simpl in Hfree. apply andb_true_iff in Hfree as [Ha Hp].
  apply negb_true_iff, Ascii.eqb_neq in Ha.
  change (String a p ++ rest) with (String a (p ++ rest)).
  cbn [contains String.prefix].
  destruct (ascii_dec c a) as [E | _]; [congruence|].
  simpl. now apply IH.
Qed.

Lemma digits_free_of_h (u : Decimal.uint) :
  free_of "h" (lower (NilEmpty.string_of_uint u)) = true.
Proof. induction u; simpl; auto. Qed.

Lemma sample_digits_free_of_h (z : Z) :
  free_of "h" (lower (Sample.digits z)) = true.
Proof.
  unfold Sample.digits, NilZero.string_of_uint.
  destruct (N.to_uint (Z.to_N z)) eqn:E; try reflexivity;
    rewrite <- E; apply digits_free_of_h.
Defined.

(** The sample formatter prints digits, a point, a sign, "nan" or "inf". *)
Lemma format_fixed_free_of_h (x : float64) :
  free_of "h" (lower (Sample.format_fixed x)) = true.
Proof.
  destruct x as [q| | |]; try reflexivity.
  unfold Sample.format_fixed.
  repeat rewrite lower_app. repeat rewrite free_of_app.
  repeat rewrite sample_digits_free_of_h.
  destruct (_ <? 0)%Z, (_ =? 0)%Z; try reflexivity;
    now rewrite sample_digits_free_of_h.
Defined.

End StringFacts.

(** ** Explanations *)

Lemma map_combine_map (A B C : Type) (f : A * B -> C) (g : A -> B) (l : list A) :
  map f (combine l (map g l)) = map (fun a => f (a, g a)) l.
Proof. induction l as [|a l IH]; simpl; [reflexivity | now rewrite IH]. Qed.

(** Destructs, one after the other, the conditions of the deviation checks
    of [explain_row]. *)
Ltac split_checks :=
  repeat match goal with
         | |- context [append_if ?b _ _] =>
             destruct b; cbn [append_if app]
         end.




(** Without the generic fallback the invariant would fail: a flagged record
    on which no check fires (here the only Normal record and the flagged one
    carry the same features) gets exactly the fallback reason. *)
Example fallback_reason_emitted :
  generate_explanations Sample.format_fixed
    {| rows := [Sample.quiet; Sample.row "10.0.0.1" 40 (3 # 10) (1 # 50) (Fin 1) "Anomaly"];
       has_avg_req_size := true; has_unique_endpoints := true |}
  = Ok {| req_rate_deviation := [Fin (100 # 100); Fin (100 # 100)];
          explanation := [within_baseline; fallback_reason] |}.
Proof. reflexivity. Qed.

(** *** A batch without Normal records *)

Lemma series_mean_empty : series_mean [] = NaN.
Proof. reflexivity. Qed.

Lemma gtb_NaN_r (x y : float64) : F.gtb x (NaN * y)%f64 = false.
Proof. now destruct x. Qed.

Lemma explain_row_nan_baseline (fmt : float64 -> string) (df : Frame)
      (row : Row) (deviation : float64) :
  filter is_normal (rows df) = [] ->
  explain_row fmt df (learn_baseline df) row deviation = fallback_reason.
Proof.
  intros Hnone. unfold explain_row, learn_baseline. rewrite Hnone.
  cbn [map base_req_per_min base_error_rate base_avg_resp_time
       base_avg_req_size base_unique_endpoints].
  rewrite series_mean_empty, !gtb_NaN_r.
  destruct (has_avg_req_size df), (has_unique_endpoints df);
    cbn [baseline_get andb]; rewrite ?gtb_NaN_r; reflexivity.
Qed.

(** C2, as stated, fails: on a batch whose two records are both flagged,
    [generate_explanations] raises nothing and returns [NaN] deviations. *)
Lemma empty_baseline_not_detected :
  filter is_normal (rows Sample.all_flagged) = []
  /\ generate_explanations Sample.format_fixed Sample.all_flagged
     = Ok {| req_rate_deviation := [NaN; NaN];
             explanation := [fallback_reason; fallback_reason] |}.
Proof. split; reflexivity. Qed.

(** C2, as the code has it: a batch without Normal records raises no error.
    The baseline means are [NaN], every request-rate deviation is [NaN], no
    deviation check fires, and each flagged record gets the generic fallback
    reason. *)
Theorem empty_baseline_propagates_nan :
  forall (fmt : float64 -> string) (df : Frame),
    filter is_normal (rows df) = [] ->
    base_req_per_min (learn_baseline df) = NaN
    /\ generate_explanations fmt df
       = Ok {| req_rate_deviation := map (fun _ => NaN) (rows df);
               explanation :=
                 map (fun r => if String.eqb (anomaly_label r) "Anomaly"
                               then fallback_reason
                               else within_baseline)
                     (rows df) |}.
Proof.
  intros fmt df Hnone. split.
  { unfold learn_baseline. rewrite Hnone. reflexivity. }
  unfold generate_explanations. rewrite map_combine_map. f_equal. f_equal.
  - apply map_ext. intros r. unfold learn_baseline. rewrite Hnone. reflexivity.
  - apply map_ext. intros r. cbn [fst snd].
    now rewrite explain_row_nan_baseline.
Qed.

Lemma empty_baseline_propagates_nan_witness :
  base_req_per_min (learn_baseline Sample.all_flagged) = NaN
  /\ generate_explanations Sample.format_fixed Sample.all_flagged
     = Ok {| req_rate_deviation := [NaN; NaN];
             explanation := [fallback_reason; fallback_reason] |}.
Proof.
  apply (empty_baseline_propagates_nan Sample.format_fixed Sample.all_flagged).
  reflexivity.
Defined.

(** ** The keyword-driven recommender on explainer output *)

Section RateLimitBranch.

Import PyStr.
Local Open Scope string_scope.

Variable fmt : float64 -> string.

(** The text of a float holds no letter h, small or capital. *)
Hypothesis fmt_free_of_h : forall x, free_of "h" (lower (fmt x)) = true.

(** The rate reason contributes nothing to a search for a needle that
    starts with h. *)
Lemma rate_reason_skipped (needle rest : string) (x : float64) :
  contains (String "h" needle)
    (lower (("Request rate exceeded baseline by " ++ fmt x ++ times_sign) ++ rest))
  = contains (String "h" needle) (lower rest).
Proof.
  rewrite lower_app. apply contains_skip.
  rewrite !lower_app, !free_of_app, fmt_free_of_h. reflexivity.
Qed.

Lemma explanation_lacks_high_request_rate (df : Frame) (baseline : Baseline)
      (row : Row) (deviation : float64) :
  contains "high request rate"
    (lower (explain_row fmt df baseline row deviation)) = false.
Proof.
  unfold explain_row.
  set (rate := "Request rate exceeded baseline by " ++ fmt deviation ++ times_sign).
  split_checks; cbn [app]; try reflexivity;
    rewrite join_cons; subst rate;
    change "high request rate" with (String "h" "igh request rate");
    rewrite rate_reason_skipped; reflexivity.
Qed.

End RateLimitBranch.

(** C10: on a record labeled Anomaly whose explanation comes from
    [explain_row], the lowercased explanation never contains "high request
    rate", so [recommend_rule] never answers "Rate limit IP for 5 minutes":
    it answers "Temporarily block IP", "Inspect payload and block if
    repeated" or "Monitor traffic closely".  The text printed for a float is
    assumed to hold no letter h. *)
Theorem rate_limit_unreachable :
  forall (fmt : float64 -> string) (df : Frame) (baseline : Baseline)
         (row : Row) (deviation : float64),
    (forall x, PyStr.free_of "h" (PyStr.lower (fmt x)) = true) ->
    anomaly_label row = "Anomaly"%string ->
    let e := explain_row fmt df baseline row deviation in
    PyStr.contains "high request rate" (PyStr.lower e) = false
    /\ RuleEngine.recommend_rule (anomaly_label row) e
       <> "Rate limit IP for 5 minutes"%string
    /\ In (RuleEngine.recommend_rule (anomaly_label row) e)
          ["Temporarily block IP";
           "Inspect payload and block if repeated";
           "Monitor traffic closely"]%string.
Proof.
  intros fmt df baseline row deviation Hfmt Hlabel e.
  pose proof (explanation_lacks_high_request_rate fmt Hfmt df baseline row deviation)
    as Hlack.
  fold e in Hlack. split; [exact Hlack|].
  unfold RuleEngine.recommend_rule. rewrite Hlabel, Hlack.
  cbn [String.eqb Ascii.eqb Bool.eqb negb].
  destruct (PyStr.contains "error rate" _); [|destruct (PyStr.contains "payload" _)];
    (split; [discriminate | simpl; auto]).
Qed.

Lemma rate_limit_unreachable_witness :
  PyStr.contains "high request rate"
    (PyStr.lower
       (explain_row Sample.format_fixed Sample.frame
          (learn_baseline Sample.frame) Sample.burst (Fin (75 # 100)))) = false
  /\ RuleEngine.recommend_rule (anomaly_label Sample.burst)
       (explain_row Sample.format_fixed Sample.frame
          (learn_baseline Sample.frame) Sample.burst (Fin (75 # 100)))
     <> "Rate limit IP for 5 minutes"%string
  /\ In (RuleEngine.recommend_rule (anomaly_label Sample.burst)
           (explain_row Sample.format_fixed Sample.frame
              (learn_baseline Sample.frame) Sample.burst (Fin (75 # 100))))
        ["Temporarily block IP";
         "Inspect payload and block if repeated";
         "Monitor traffic closely"]%string.
Proof.
  apply (rate_limit_unreachable Sample.format_fixed Sample.frame
           (learn_baseline Sample.frame) Sample.burst (Fin (75 # 100))).
  - exact format_fixed_free_of_h.
  - reflexivity.
Defined.

(** The recommender on the explanations of the sample batch, and on a
    record whose rate check fires: the rate reason, once lowercased, reads
    "request rate exceeded", not "high request rate". *)
Example recommend_on_sample :
  RuleEngine.recommend_rule "Anomaly" "Unusually high error rate observed"
  = "Temporarily block IP"%string.
Proof. reflexivity. Qed.

Example recommend_on_rate_reason :
  let df := {| rows := [Sample.quiet;
                        Sample.row "10.0.0.9" 200 (3 # 10) (1 # 50) (Fin 1) "Anomaly"];
               has_avg_req_size := true; has_unique_endpoints := true |} in
  exists e,
    generate_explanations Sample.format_fixed df
    = Ok {| req_rate_deviation := [Fin (100 # 100); Fin (500 # 100)];
            explanation := [within_baseline; e] |}
    /\ e = ("Request rate exceeded baseline by 5.0" ++ PyStr.times_sign)%string
    /\ RuleEngine.recommend_rule "Anomaly" e = "Monitor traffic closely"%string.
Proof. eexists. repeat split. Qed.

(** * Further properties of the code *)

(** ** anomaly_detector.py: outcomes, columns, reruns *)

Section InferenceOutcomes.

Import Inference.

Lemma filter_nil_find (A : Type) (f : A -> bool) (l : list A) :
  filter f l = [] -> find f l = None.
Proof.
  induction l as [|a l IH]; simpl; [reflexivity|].
  destruct (f a); [discriminate | exact IH].
Qed.

Lemma missing_nil_incl (df : DataFrame) (schema : list string) :
  filter (fun col => negb (mem col (columns df))) schema = [] ->
  incl schema (columns df).
Proof.
  intros Hnil c Hc. apply mem_In.
  destruct (mem c (columns df)) eqn:E; [reflexivity|].
  assert (H : In c (filter (fun col => negb (mem col (columns df))) schema)).
  { apply filter_In. split; [assumption | now rewrite E]. }
  rewrite Hnil in H. destruct H.
Qed.

Lemma columns_setitem (df : DataFrame) (label : string) (data : list cell) :
  columns (setitem df label data)
  = if mem label (columns df) then columns df else columns df ++ [label].
Proof.
  unfold setitem, columns. destruct (mem label (map fst df)).
  - rewrite map_map. apply map_ext. intros [k d]. simpl.
    destruct (String.eqb_spec k label); simpl; congruence.
  - now rewrite map_app.
Qed.

Lemma mem_app (l : string) (xs ys : list string) :
  mem l (xs ++ ys) = mem l xs || mem l ys.
Proof. unfold mem. apply existsb_app. Qed.

(** A column under another label is untouched by an assignment. *)
Lemma filter_setitem_other (df : DataFrame) (l k : string) (d : list cell) :
  l <> k ->
  filter (fun c => String.eqb (fst c) l) (setitem df k d)
  = filter (fun c => String.eqb (fst c) l) df.
Proof.
  intros Hne. unfold setitem. destruct (mem k (columns df)).
  - induction df as [|[k' d'] df IH]; simpl; [reflexivity|].
    destruct (String.eqb_spec k' k) as [-> | Hk]; simpl.
    + destruct (String.eqb_spec k l); [congruence | exact IH].
    + destruct (String.eqb_spec k' l); [now rewrite IH | exact IH].
  - rewrite filter_app. simpl.
    destruct (String.eqb_spec k l); [congruence | now rewrite app_nil_r].
Qed.

Lemma in_setitem_other (df : DataFrame) (k : string) (d : list cell)
      (c : string * list cell) :
  fst c <> k -> In c df -> In c (setitem df k d).
Proof.
  intros Hne Hin. unfold setitem. destruct (mem k (columns df)).
  - apply in_map_iff. exists c. split; [|assumption].
    destruct (String.eqb_spec (fst c) k); [contradiction | reflexivity].
  - apply in_or_app. now left.
Qed.

(** After an assignment every column under the label holds the data. *)
Lemma setitem_holds (df : DataFrame) (k : string) (d : list cell)
      (c : string * list cell) :
  In c (setitem df k d) -> fst c = k -> c = (k, d).
Proof.
  unfold setitem. destruct (mem k (columns df)) eqn:E; intros Hin Hk.
  - apply in_map_iff in Hin as (c' & Hc' & _).
    destruct (String.eqb_spec (fst c') k) as [E' | E']; [now symmetry|].
    subst c'. contradiction.
  - apply in_app_or in Hin as [Hin | [<- | []]]; [|reflexivity].
    apply mem_false in E. elim E. subst k. now apply (in_map fst).
Qed.

(** Assigning to a label whose columns already hold the data changes
    nothing. *)
Lemma setitem_same (df : DataFrame) (k : string) (d : list cell) :
  In k (columns df) ->
  (forall c, In c df -> fst c = k -> c = (k, d)) ->
  setitem df k d = df.
Proof.
  intros Hin Hall. unfold setitem. apply mem_In in Hin. rewrite Hin.
  clear Hin. induction df as [|c df IH]; simpl; [reflexivity|].
  rewrite IH by (intros c' Hc'; apply Hall; now right). f_equal.
  destruct (String.eqb_spec (fst c) k) as [E | E]; [|reflexivity].
  symmetry. apply Hall; [now left | assumption].
Qed.

Lemma in_columns_setitem (df : DataFrame) (k l : string) (d : list cell) :
  In l (columns df) \/ l = k -> In l (columns (setitem df k d)).
Proof.
  rewrite columns_setitem. destruct (mem k (columns df)) eqn:E.
  - intros [H | ->]; [assumption | now apply mem_In].
  - intros [H | ->]; apply in_or_app; [now left | right; now left].
Qed.

Lemma setitem_holds_other (df : DataFrame) (k k' : string) (d d' : list cell) :
  k <> k' ->
  (forall c, In c df -> fst c = k -> c = (k, d)) ->
  forall c, In c (setitem df k' d') -> fst c = k -> c = (k, d).
Proof.
  intros Hne Hall c Hin Hk. unfold setitem in Hin.
  destruct (mem k' (columns df)).
  - apply in_map_iff in Hin as (c' & Hc' & Hin').
    destruct (String.eqb_spec (fst c') k') as [E | E].
    + subst c. simpl in Hk. congruence.
    + subst c'. now apply Hall.
  - apply in_app_or in Hin as [Hin | [<- | []]]; [now apply Hall|].
    simpl in Hk. congruence.
Qed.

Lemma flat_map_setitem_other (df : DataFrame) (k : string) (d : list cell)
      (labels : list string) :
  ~ In k labels ->
  flat_map (fun l => filter (fun c => String.eqb (fst c) l) (setitem df k d)) labels
  = flat_map (fun l => filter (fun c => String.eqb (fst c) l) df) labels.
Proof.
  induction labels as [|l labels IH]; intros Hk; [reflexivity|].
  simpl. rewrite filter_setitem_other, IH; [reflexivity | |].
  - intros H. apply Hk. now right.
  - intros ->. apply Hk. now left.
Qed.

Lemma getitem_setitem_other (df : DataFrame) (k : string) (d : list cell)
      (labels : list string) :
  ~ In k labels ->
  incl labels (columns df) ->
  getitem (setitem df k d) labels = getitem df labels.
Proof.
  intros Hk Hincl. unfold getitem.
  rewrite (filter_nil_find _ _ _ (missing_nil df labels Hincl)).
  rewrite (filter_nil_find _ _ _ (missing_nil (setitem df k d) labels
             (fun l Hl => in_columns_setitem df k l d (or_introl (Hincl l Hl))))).
  now rewrite flat_map_setitem_other.
Qed.

Lemma NoDup_setitem (df : DataFrame) (k : string) (d : list cell) :
  NoDup (columns df) -> NoDup (columns (setitem df k d)).
Proof.
  intros Hnd. rewrite columns_setitem.
  destruct (mem k (columns df)) eqn:E; [assumption|].
  apply NoDup_app; [assumption | repeat constructor; intros [] |].
  intros a Ha [<- | []]. apply mem_false in E. contradiction.
Qed.

(** The three labels written by [run_anomaly_detection]. *)
Lemma run_anomaly_detection_unfold (model : ScoringModel) (df out : DataFrame) :
  run_anomaly_detection model df = Ok out ->
  exists X,
    select_features model df = Ok X
    /\ out = setitem
               (setitem
                  (setitem df "anomaly_score"
                     (map CFloat (decision_function model X)))
                  "anomaly" (map CInt (predict model X)))
               "anomaly_label"
               (map (fun x => CStr (anomaly_label_of x)) (predict model X)).
Proof.
  unfold run_anomaly_detection.
  destruct (select_features model df) as [X|e]; simpl; [|discriminate].
  intros H. injection H as <-. now exists X.
Qed.

Lemma select_features_Ok (model : ScoringModel) (df X : DataFrame) :
  select_features model df = Ok X ->
  exists schema,
    feature_names_in_ model = Some schema
    /\ incl schema (columns df)
    /\ getitem df schema = Ok X.
Proof.
  unfold select_features. destruct (feature_names_in_ model) as [schema|];
    [|discriminate].
  destruct (filter _ schema) eqn:E; [|discriminate].
  intros H. exists schema. repeat split; [now apply missing_nil_incl | exact H].
Qed.

(** X1: the outcome of [run_anomaly_detection] is decided by the schema alone:
    a result exactly when the model declares a schema that the table covers,
    [RuntimeError] exactly when the model declares none, the missing-columns
    [ValueError] exactly when some declared column is absent; the later
    selection [df[feature_columns]] never raises [KeyError]. *)
Theorem run_anomaly_detection_outcome :
  forall (model : ScoringModel) (df : DataFrame),
    match run_anomaly_detection model df with
    | Ok _ =>
        exists schema, feature_names_in_ model = Some schema
                       /\ incl schema (columns df)
    | Raise (RuntimeError _) => feature_names_in_ model = None
    | Raise (ValueError_missing_columns missing) =>
        exists schema, feature_names_in_ model = Some schema
                       /\ ~ incl schema (columns df)
                       /\ missing <> []
    | Raise _ => False
    end.
Proof.
  intros model df. unfold run_anomaly_detection, select_features.
  destruct (feature_names_in_ model) as [schema|]; [|reflexivity].
  destruct (filter _ schema) as [|c rest] eqn:E.
  - pose proof (missing_nil_incl df schema E) as Hincl.
    unfold getitem.
    rewrite (filter_nil_find _ _ _ E). simpl. now exists schema.
  - simpl. exists schema. repeat split; [|discriminate].
    intros Hincl. rewrite (missing_nil df schema Hincl) in E. discriminate.
Qed.

(** X2: the returned table keeps every input column and appends, in this
    order, those of [anomaly_score], [anomaly] and [anomaly_label] that the
    input lacks; a column under another label is carried over unchanged, and
    distinct labels stay distinct. *)
Theorem run_anomaly_detection_columns :
  forall (model : ScoringModel) (df out : DataFrame),
    run_anomaly_detection model df = Ok out ->
    columns out
    = columns df
      ++ filter (fun l => negb (mem l (columns df)))
           ["anomaly_score"; "anomaly"; "anomaly_label"]%string
    /\ (forall c, In c df ->
                  ~ In (fst c) ["anomaly_score"; "anomaly"; "anomaly_label"]%string ->
                  In c out)
    /\ (NoDup (columns df) -> NoDup (columns out)).
Proof.
  intros model df out Hrun.
  apply run_anomaly_detection_unfold in Hrun as (X & _ & ->).
  split; [|split].
  - rewrite !columns_setitem.
    destruct (mem "anomaly_score" (columns df)) eqn:E1;
      destruct (mem "anomaly" (columns df)) eqn:E2;
      destruct (mem "anomaly_label" (columns df)) eqn:E3;
      rewrite ?mem_app, ?E1, ?E2, ?E3; simpl;
      rewrite ?mem_app, ?E1, ?E2, ?E3; simpl;
      rewrite <- ?app_assoc, ?app_nil_r; reflexivity.
  - intros c Hc Hout.
    repeat (apply in_setitem_other;
            [intros E; apply Hout; rewrite E; simpl; tauto|]).
    exact Hc.
  - intros Hnd. now repeat apply NoDup_setitem.
Qed.

End InferenceOutcomes.

Lemma run_anomaly_detection_columns_witness :
  exists out,
    Inference.run_anomaly_detection Sample.model Sample.features = Ok out
    /\ Inference.columns out
       = ["ip"; "error_rate"; "burst_score"; "req_per_min";
          "anomaly_score"; "anomaly"; "anomaly_label"]%string.
Proof.
  eexists. split; [reflexivity|].
  apply (run_anomaly_detection_columns Sample.model Sample.features).
  reflexivity.
Defined.

Section InferenceReruns.

Import Inference.

Lemma select_features_setitem (model : ScoringModel) (schema : list string)
      (df : DataFrame) (k : string) (d : list cell) :
  feature_names_in_ model = Some schema ->
  ~ In k schema ->
  incl schema (columns df) ->
  select_features model (setitem df k d) = select_features model df.
Proof.
  intros Hs Hk Hincl. unfold select_features. rewrite Hs.
  rewrite (missing_nil df schema Hincl).
  rewrite (missing_nil (setitem df k d) schema
             (fun l Hl => in_columns_setitem df k l d (or_introl (Hincl l Hl)))).
  now apply getitem_setitem_other.
Qed.

(** X3: running the detector on its own output changes nothing, as long as
    the schema names none of the three columns the detector writes: the
    same matrix is selected and the three columns are rewritten with the
    values they hold. *)
Theorem rerun_on_output_is_identity :
  forall (model : ScoringModel) (schema : list string) (df out : DataFrame),
    feature_names_in_ model = Some schema ->
    (forall l, In l ["anomaly_score"; "anomaly"; "anomaly_label"]%string ->
               ~ In l schema) ->
    run_anomaly_detection model df = Ok out ->
    run_anomaly_detection model out = Ok out.
Proof.
  intros model schema df out Hs Hfresh Hrun.
  apply run_anomaly_detection_unfold in Hrun as (X & HX & Hout).
  destruct (select_features_Ok model df X HX) as (schema' & Hs' & Hincl & _).
  rewrite Hs in Hs'. injection Hs' as <-.
  set (d1 := map CFloat (decision_function model X)) in *.
  set (d2 := map CInt (predict model X)) in *.
  set (d3 := map (fun x => CStr (anomaly_label_of x)) (predict model X)) in *.
  set (df1 := setitem df "anomaly_score" d1) in *.
  set (df2 := setitem df1 "anomaly" d2) in *.
  assert (H1 : incl schema (columns df1)).
  { intros l Hl. apply in_columns_setitem. left. now apply Hincl. }
  assert (H2 : incl schema (columns df2)).
  { intros l Hl. apply in_columns_setitem. left. now apply H1. }
  assert (HX' : select_features model out = Ok X).
  { rewrite Hout.
    rewrite (select_features_setitem model schema df2 _ _ Hs); auto.
    - unfold df2. rewrite (select_features_setitem model schema df1 _ _ Hs); auto.
      + unfold df1. rewrite (select_features_setitem model schema df _ _ Hs); auto.
        apply Hfresh. simpl. tauto.
      + apply Hfresh. simpl. tauto.
    - apply Hfresh. simpl. tauto. }
  unfold run_anomaly_detection. rewrite HX'. simpl. f_equal.
  fold d1 d2 d3.
  assert (E1 : setitem out "anomaly_score" d1 = out).
  { apply setitem_same.
    - rewrite Hout. do 2 (apply in_columns_setitem; left).
      apply in_columns_setitem. now right.
    - rewrite Hout.
      apply setitem_holds_other; [discriminate|].
      apply setitem_holds_other; [discriminate|].
      intros c. apply setitem_holds. }
  rewrite E1.
  assert (E2 : setitem out "anomaly" d2 = out).
  { apply setitem_same.
    - rewrite Hout. apply in_columns_setitem; left.
      apply in_columns_setitem. now right.
    - rewrite Hout.
      apply setitem_holds_other; [discriminate|].
      intros c. apply setitem_holds. }
  rewrite E2.
  apply setitem_same.
  - rewrite Hout. apply in_columns_setitem. now right.
  - rewrite Hout. intros c. apply setitem_holds.
Qed.

Lemma rerun_on_output_is_identity_witness :
  exists out,
    Inference.run_anomaly_detection Sample.model Sample.features = Ok out
    /\ Inference.run_anomaly_detection Sample.model out = Ok out.
Proof.
  eexists. split; [reflexivity|].
  apply (rerun_on_output_is_identity Sample.model
           ["req_per_min"; "error_rate"]%string Sample.features).
  - reflexivity.
  - simpl. intros l [<- | [<- | [<- | []]]] [H | [H | []]]; discriminate H.
  - reflexivity.
Defined.

(** X4: assigning a column and reading it back by label gives that column
    alone, in a table of distinct labels. *)
Theorem getitem_after_setitem :
  forall (df : DataFrame) (label : string) (data : list cell),
    NoDup (columns df) ->
    getitem (setitem df label data) [label] = Ok [(label, data)].
Proof.
  intros df label data Hnd.
  destruct (getitem_superset (setitem df label data) [label]) as (X & HX & Hc & Hi).
  - now apply NoDup_setitem.
  - intros l [<- | []]. apply in_columns_setitem. now right.
  - rewrite HX. f_equal.
    destruct X as [|c [|c' X]]; try discriminate Hc.
    unfold columns in Hc. simpl in Hc. injection Hc as Hc.
    rewrite (setitem_holds df label data c); [reflexivity | | assumption].
    apply Hi. now left.
Qed.

Lemma getitem_after_setitem_witness :
  getitem (setitem Sample.features "burst_score" [CFloat NaN]) ["burst_score"%string]
  = Ok [("burst_score"%string, [CFloat NaN])].
Proof.
  apply (getitem_after_setitem Sample.features).
  simpl. repeat (constructor; [simpl; intuition discriminate|]). constructor.
Defined.

Lemma mem_columns_perm (df df' : DataFrame) (l : string) :
  Permutation df df' -> mem l (columns df) = mem l (columns df').
Proof.
  intros Hp. apply eq_true_iff_eq. rewrite !mem_In. unfold columns.
  split; apply Permutation_in; [|symmetry]; now apply Permutation_map.
Qed.

Lemma filter_label_perm (df df' : DataFrame) (l : string) :
  Permutation df df' -> NoDup (columns df) -> In l (columns df) ->
  filter (fun c => String.eqb (fst c) l) df
  = filter (fun c => String.eqb (fst c) l) df'.
Proof.
  intros Hp Hnd Hin.
  assert (Hnd' : NoDup (columns df')).
  { unfold columns. eapply Permutation_NoDup; [|exact Hnd].
    now apply Permutation_map. }
  assert (Hin' : In l (columns df')).
  { unfold columns. eapply Permutation_in; [|exact Hin].
    now apply Permutation_map. }
  destruct (filter_label_unique df l Hnd Hin) as (d & -> & Hd).
  destruct (filter_label_unique df' l Hnd' Hin') as (d' & Hf' & Hd').
  rewrite Hf'. f_equal. f_equal.
  apply (Permutation_in _ Hp) in Hd.
  assert (Hboth : In (l, d) (filter (fun c => String.eqb (fst c) l) df')).
  { apply filter_In. split; [assumption | apply String.eqb_refl]. }
  rewrite Hf' in Hboth. destruct Hboth as [E | []]. congruence.
Qed.

(** X5: the order of the table's columns does not matter: two tables with
    the same columns (distinct labels) in different orders give the model
    the same matrix, or fail with the same exception. *)
Theorem select_features_ignores_column_order :
  forall (model : ScoringModel) (df df' : DataFrame),
    Permutation df df' ->
    NoDup (columns df) ->
    select_features model df = select_features model df'.
Proof.
  intros model df df' Hp Hnd. unfold select_features.
  destruct (feature_names_in_ model) as [schema|]; [|reflexivity].
  rewrite (filter_ext (fun col => negb (mem col (columns df)))
             (fun col => negb (mem col (columns df')))
             (fun l => f_equal negb (mem_columns_perm df df' l Hp))).
  destruct (filter _ schema) eqn:E; [|reflexivity].
  pose proof (missing_nil_incl df' schema E) as Hincl'.
  assert (Hincl : incl schema (columns df)).
  { intros l Hl. apply mem_In. rewrite (mem_columns_perm df df' l Hp).
    apply mem_In. now apply Hincl'. }
  unfold getitem.
  rewrite (filter_nil_find _ _ _ (missing_nil df schema Hincl)).
  rewrite (filter_nil_find _ _ _ E). f_equal.
  clear E. induction schema as [|l schema IH]; [reflexivity|].
  simpl. rewrite (filter_label_perm df df' l Hp Hnd), IH; [reflexivity | | |].
  - intros c Hc. apply Hincl'. now right.
  - intros c Hc. apply Hincl. now right.
  - apply Hincl. now left.
Qed.

Lemma select_features_ignores_column_order_witness :
  select_features Sample.model Sample.features
  = select_features Sample.model Sample.features_reordered.
Proof.
  apply (select_features_ignores_column_order Sample.model).
  - unfold Sample.features, Sample.features_reordered.
    eapply perm_trans; [apply Permutation_cons_append|]. simpl.
    eapply perm_trans; [apply Permutation_cons_append|]. simpl.
    apply perm_swap.
  - simpl. repeat (constructor; [simpl; intuition discriminate|]). constructor.
Defined.

End InferenceReruns.

(** ** rule_engine.py: bounds and edge cases of [calculate_risk] *)

Lemma truncate_neg (q : Q) : q <= 0 -> F.truncate q = Qceiling q.
Proof.
  destruct q as [n d]. unfold Qle, F.truncate, Qceiling, Qfloor. simpl.
  intros H. rewrite Z.mul_1_r in H.
  rewrite <- (Z.opp_involutive n) at 1.
  rewrite Z.quot_opp_l by lia.
  rewrite Z.quot_div_nonneg by lia. reflexivity.
Qed.

Lemma truncate_comp (p q : Q) : p == q -> F.truncate p = F.truncate q.
Proof.
  intros H. destruct (Qlt_le_dec p 0) as [Hp | Hp].
  - rewrite !truncate_neg by lra. unfold Qceiling.
    now rewrite (Qfloor_comp (- p) (- q)) by now rewrite H.
  - rewrite !truncate_nonneg by lra. now apply Qfloor_comp.
Qed.

Lemma truncate_mono (p q : Q) : p <= q -> (F.truncate p <= F.truncate q)%Z.
Proof.
  intros H. destruct (Qlt_le_dec p 0) as [Hp | Hp];
    destruct (Qlt_le_dec q 0) as [Hq | Hq].
  - rewrite !truncate_neg by lra. now apply Qceiling_resp_le.
  - rewrite truncate_neg, truncate_nonneg by lra.
    assert (H1 : (Qceiling p <= Qceiling 0)%Z) by (apply Qceiling_resp_le; lra).
    assert (H2 : (Qfloor 0 <= Qfloor q)%Z) by now apply Qfloor_resp_le.
    change (Qceiling 0) with 0%Z in H1. change (Qfloor 0) with 0%Z in H2. lia.
  - lra.
  - rewrite !truncate_nonneg by lra. now apply Qfloor_resp_le.
Qed.

(** The weighted sum that [calculate_risk] accumulates, on a finite burst
    score. *)
Lemma calculate_risk_finite (row : Row) (b : Q) :
  burst_score row = Fin b ->
  exists z,
    RuleEngine.calculate_risk row = Ok (F.truncate z)
    /\ z == Qmin (Qmin (inject_Z (req_per_min row) * (1 # 2)) 30
                  + error_rate row * 40 + b * 30) 100.
Proof.
  intros Hb. unfold RuleEngine.calculate_risk. rewrite Hb.
  unfold F.of_Z. cbn [F.mul].
  destruct (py_min_Fin (inject_Z (req_per_min row) * (1 # 2)) 30)
    as (z1 & -> & Hz1).
  cbn [F.add].
  destruct (py_min_Fin (0 + z1 + error_rate row * 40 + b * 30) 100)
    as (z2 & -> & Hz2).
  exists z2. split; [reflexivity|]. rewrite Hz2.
  assert (E : 0 + z1 + error_rate row * 40 + b * 30
              == Qmin (inject_Z (req_per_min row) * (1 # 2)) 30
                 + error_rate row * 40 + b * 30) by (rewrite Hz1; ring).
  destruct (Q.min_spec (0 + z1 + error_rate row * 40 + b * 30) 100)
    as [[H1 ->] | [H1 ->]];
    destruct (Q.min_spec (Qmin (inject_Z (req_per_min row) * (1 # 2)) 30
                          + error_rate row * 40 + b * 30) 100)
    as [[H2 ->] | [H2 ->]]; lra.
Qed.

(** On a burst score that is not a number the result does not depend on the
    other cells. *)
Lemma calculate_risk_special (row : Row) :
  F.is_finite (burst_score row) = false ->
  RuleEngine.calculate_risk row
  = match burst_score row with
    | PInf => Ok 100%Z
    | NInf => Raise (OverflowError "cannot convert float infinity to integer")
    | _ => Raise (ValueError "cannot convert float NaN to integer")
    end.
Proof.
  intros Hnf. unfold RuleEngine.calculate_risk. unfold F.of_Z. cbn [F.mul].
  destruct (py_min_Fin (inject_Z (req_per_min row) * (1 # 2)) 30)
    as (z1 & -> & _).
  destruct (burst_score row); [discriminate Hnf | reflexivity ..].
Qed.

(** X6: what [calculate_risk] does on each kind of burst score: on a number
    it returns an integer, never above 100; on +infinity it returns 100; on
    [NaN] the conversion [int] raises [ValueError]; on -infinity it raises
    [OverflowError]. *)
Theorem calculate_risk_outcome :
  forall row : Row,
    match burst_score row with
    | Fin _ => exists z, RuleEngine.calculate_risk row = Ok z /\ (z <= 100)%Z
    | PInf => RuleEngine.calculate_risk row = Ok 100%Z
    | NaN =>
        RuleEngine.calculate_risk row
        = Raise (ValueError "cannot convert float NaN to integer")
    | NInf =>
        RuleEngine.calculate_risk row
        = Raise (OverflowError "cannot convert float infinity to integer")
    end.
Proof.
  intros row. destruct (burst_score row) as [b| | |] eqn:Hb.
  - destruct (calculate_risk_finite row b Hb) as (z & -> & Hz).
    eexists. split; [reflexivity|].
    change 100%Z with (F.truncate 100). apply truncate_mono.
    rewrite Hz. apply Q.le_min_r.
  - rewrite calculate_risk_special, Hb by now rewrite Hb. reflexivity.
  - rewrite calculate_risk_special, Hb by now rewrite Hb. reflexivity.
  - rewrite calculate_risk_special, Hb by now rewrite Hb. reflexivity.
Qed.

(** X7: the weighted-cap risk does not decrease when the request count, the
    error rate and the burst score do not decrease. *)
Theorem calculate_risk_monotone :
  forall (r1 r2 : Row) (b1 b2 : Q),
    burst_score r1 = Fin b1 ->
    burst_score r2 = Fin b2 ->
    (req_per_min r1 <= req_per_min r2)%Z ->
    error_rate r1 <= error_rate r2 ->
    b1 <= b2 ->
    exists z1 z2,
      RuleEngine.calculate_risk r1 = Ok z1
      /\ RuleEngine.calculate_risk r2 = Ok z2
      /\ (z1 <= z2)%Z.
Proof.
  intros r1 r2 b1 b2 Hb1 Hb2 Hreq Herr Hb.
  destruct (calculate_risk_finite r1 b1 Hb1) as (q1 & -> & Hq1).
  destruct (calculate_risk_finite r2 b2 Hb2) as (q2 & -> & Hq2).
  do 2 eexists. repeat split. apply truncate_mono. rewrite Hq1, Hq2.
  assert (Hq : inject_Z (req_per_min r1) <= inject_Z (req_per_min r2))
    by now rewrite <- Zle_Qle.
  apply Q.min_le_compat_r.
  assert (Hm : Qmin (inject_Z (req_per_min r1) * (1 # 2)) 30
               <= Qmin (inject_Z (req_per_min r2) * (1 # 2)) 30).
  { apply Q.min_le_compat_r. lra. }
  lra.
Qed.

Lemma calculate_risk_monotone_witness :
  exists z1 z2,
    RuleEngine.calculate_risk Sample.quiet = Ok z1
    /\ RuleEngine.calculate_risk
         (Sample.row "10.0.0.1" 70 (3 # 10) (1 # 2) (Fin 1) "Normal") = Ok z2
    /\ (z1 <= z2)%Z.
Proof.
  apply (calculate_risk_monotone Sample.quiet
           (Sample.row "10.0.0.1" 70 (3 # 10) (1 # 2) (Fin 1) "Normal") 1 1).
  - reflexivity.
  - reflexivity.
  - simpl. lia.
  - simpl. q_order.
  - q_order.
Defined.

(** X8: the request-rate term saturates: from 60 requests per minute on, the
    weighted-cap risk no longer depends on the request count. *)
Theorem calculate_risk_saturates :
  forall r1 r2 : Row,
    (60 <= req_per_min r1)%Z ->
    (60 <= req_per_min r2)%Z ->
    error_rate r1 == error_rate r2 ->
    burst_score r1 = burst_score r2 ->
    RuleEngine.calculate_risk r1 = RuleEngine.calculate_risk r2.
Proof.
  intros r1 r2 H1 H2 He Hb.
  assert (Hq : forall r, (60 <= req_per_min r)%Z ->
                 Qmin (inject_Z (req_per_min r) * (1 # 2)) 30 == 30).
  { intros r Hr. apply Q.min_r.
    assert (60 <= inject_Z (req_per_min r)).
    { change 60 with (inject_Z 60). now rewrite <- Zle_Qle. }
    lra. }
  destruct (burst_score r1) as [b| | |] eqn:Hb1; symmetry in Hb.
  - destruct (calculate_risk_finite r1 b Hb1) as (q1 & -> & Hq1).
    destruct (calculate_risk_finite r2 b Hb) as (q2 & -> & Hq2).
    f_equal. apply truncate_comp.
    rewrite Hq1, Hq2, (Hq r1 H1), (Hq r2 H2), He. reflexivity.
  - rewrite !calculate_risk_special by (rewrite ?Hb1, ?Hb; reflexivity).
    now rewrite Hb1, Hb.
  - rewrite !calculate_risk_special by (rewrite ?Hb1, ?Hb; reflexivity).
    now rewrite Hb1, Hb.
  - rewrite !calculate_risk_special by (rewrite ?Hb1, ?Hb; reflexivity).
    now rewrite Hb1, Hb.
Qed.

Lemma calculate_risk_saturates_witness :
  RuleEngine.calculate_risk
    (Sample.row "10.0.0.2" 60 (3 # 10) (9 # 10) (Fin (3 # 4)) "Anomaly")
  = RuleEngine.calculate_risk
      (Sample.row "10.0.0.2" 5000 (3 # 10) (9 # 10) (Fin (3 # 4)) "Anomaly").
Proof.
  apply calculate_risk_saturates.
  - simpl. lia.
  - simpl. lia.
  - reflexivity.
  - reflexivity.
Defined.



(** ** ml_engine.py: how scores, tiers and actions combine *)

Lemma rint_mono (p q : Q) : p <= q -> (F.rint p <= F.rint q)%Z.
Proof.
  intros H. pose proof (Qfloor_resp_le _ _ H) as Hf.
  pose proof (rint_floor p) as Hp. pose proof (rint_floor q) as Hq.
  destruct (Z.eq_dec (Qfloor p) (Qfloor q)) as [E | E]; [|lia].
  unfold F.rint in *. rewrite E in *.
  destruct (Qcompare_spec (p - inject_Z (Qfloor q)) (1 # 2));
    destruct (Qcompare_spec (q - inject_Z (Qfloor q)) (1 # 2));
    try destruct (Z.even (Qfloor q)); first [lia | lra].
Qed.

Lemma round2_mono (p q : Q) :
  p <= q ->
  exists p' q', F.round2 (Fin p) = Fin p' /\ F.round2 (Fin q) = Fin q' /\ p' <= q'.
Proof.
  intros H. simpl. do 2 eexists. repeat split.
  assert (Hr : (F.rint (p * 100) <= F.rint (q * 100))%Z)
    by (apply rint_mono; lra).
  unfold Qle. simpl. lia.
Qed.


(** The score of the i-th record, in the order the code multiplies. *)
Lemma risk_score_nth (df : list Row) (max_req max_resp : Q) (i : nat) (r : Row) :
  series_max (map (fun r => inject_Z (req_per_min r)) df) = Fin max_req ->
  series_max (map avg_resp_time df) = Fin max_resp ->
  0 < max_req -> 0 < max_resp ->
  nth_error df i = Some r ->
  nth_error (MlEngine.compute_risk_score df) i
  = Some (F.round2 (Fin (inject_Z (req_per_min r) / max_req * 4
                         + error_rate r * 4
                         + avg_resp_time r / max_resp * 2))).
Proof.
  intros Hreq Hresp Hpr Hpt Hi.
  unfold MlEngine.compute_risk_score. rewrite Hreq, Hresp.
  rewrite nth_error_map, Hi. cbn [option_map]. f_equal.
  now rewrite (inject_Z_pos_compare _ _ Hpr), (div_pos _ _ Hpt).
Qed.

Lemma severity_mono_Fin (p q : Q) :
  p <= q -> severity_le (MlEngine.severity (Fin p)) (MlEngine.severity (Fin q)).
Proof.
  intros H. unfold MlEngine.severity, F.geb, F.leb, severity_le.
  destruct (Qcompare_spec 7 p), (Qcompare_spec 7 q),
           (Qcompare_spec 4 p), (Qcompare_spec 4 q);
    simpl; try lia; lra.
Qed.

Lemma map_constant (A B : Type) (f : A -> B) (c : B) (l : list A) :
  (forall b, In b (map f l) -> b = c) -> map f l = map (fun _ => c) l.
Proof.
  intros H. apply map_ext_in. intros a Ha. apply H. now apply in_map.
Qed.

(** X10: a batch in which a normalisation maximum is zero is rated Low
    throughout: every score is [NaN], [NaN >= 7] and [NaN >= 4] are false, so
    each record, whatever its error rate, gets severity Low and the action
    "Allow traffic and continue monitoring". *)
Theorem zero_maximum_rated_low :
  forall (df : list Row) (m : Q),
    Forall Spec.valid_features df ->
    m == 0 ->
    series_max (map (fun r => inject_Z (req_per_min r)) df) = Fin m
    \/ series_max (map avg_resp_time df) = Fin m ->
    MlEngine.assign_severity_and_action (MlEngine.compute_risk_score df)
    = map (fun _ => (Low, "Allow traffic and continue monitoring"%string)) df.
Proof.
  intros df m Hv Hz Hm.
  assert (Hnan : MlEngine.compute_risk_score df = map (fun _ => NaN) df).
  { unfold MlEngine.compute_risk_score. apply map_constant. intros s Hs.
    assert (Hnf : F.is_finite s = false).
    { apply in_map_iff in Hs as (r & <- & Hr). apply not_finite_risk.
      destruct Hm as [Hm | Hm]; [left | right].
      - apply (normalised_by_zero _ m _ Hm Hz).
        now apply (in_map (fun r => inject_Z (req_per_min r))).
      - apply (normalised_by_zero _ m _ Hm Hz). now apply in_map. }
    destruct (risk_score_range df Hv s Hs) as [-> | (q & -> & _)];
      [reflexivity | discriminate Hnf]. }
  rewrite Hnan. unfold MlEngine.assign_severity_and_action.
  now rewrite map_map.
Qed.

Lemma zero_maximum_rated_low_witness :
  MlEngine.assign_severity_and_action (MlEngine.compute_risk_score Sample.instant)
  = map (fun _ => (Low, "Allow traffic and continue monitoring"%string))
        Sample.instant.
Proof.
  apply (zero_maximum_rated_low Sample.instant 0).
  - exact sample_instant_valid.
  - reflexivity.
  - right. reflexivity.
Defined.



(** X12: within a batch whose maxima are positive the composite risk is
    monotone: a record that is not below another in request count, error
    rate and response time has a score, and a severity, not below the
    other's. *)
Theorem composite_risk_monotone :
  forall (df : list Row) (max_req max_resp : Q) (i j : nat) (r1 r2 : Row),
    series_max (map (fun r => inject_Z (req_per_min r)) df) = Fin max_req ->
    series_max (map avg_resp_time df) = Fin max_resp ->
    0 < max_req -> 0 < max_resp ->
    nth_error df i = Some r1 ->
    nth_error df j = Some r2 ->
    (req_per_min r1 <= req_per_min r2)%Z ->
    error_rate r1 <= error_rate r2 ->
    avg_resp_time r1 <= avg_resp_time r2 ->
    exists q1 q2,
      nth_error (MlEngine.compute_risk_score df) i = Some (Fin q1)
      /\ nth_error (MlEngine.compute_risk_score df) j = Some (Fin q2)
      /\ q1 <= q2
      /\ severity_le (MlEngine.severity (Fin q1)) (MlEngine.severity (Fin q2)).
Proof.
  intros df max_req max_resp i j r1 r2 Hreq Hresp Hpr Hpt Hi Hj Hr He Ht.
  rewrite (risk_score_nth df max_req max_resp i r1) by assumption.
  rewrite (risk_score_nth df max_req max_resp j r2) by assumption.
  assert (Hq : inject_Z (req_per_min r1) <= inject_Z (req_per_min r2))
    by now rewrite <- Zle_Qle.
  destruct (round2_mono
              (inject_Z (req_per_min r1) / max_req * 4 + error_rate r1 * 4
               + avg_resp_time r1 / max_resp * 2)
              (inject_Z (req_per_min r2) / max_req * 4 + error_rate r2 * 4
               + avg_resp_time r2 / max_resp * 2))
    as (q1 & q2 & -> & -> & Hle).
  { assert (H1 : inject_Z (req_per_min r1) / max_req
                 <= inject_Z (req_per_min r2) / max_req).
    { unfold Qdiv. apply Qmult_le_compat_r; [assumption|].
      apply Qlt_le_weak. now apply Qinv_lt_0_compat. }
    assert (H2 : avg_resp_time r1 / max_resp <= avg_resp_time r2 / max_resp).
    { unfold Qdiv. apply Qmult_le_compat_r; [assumption|].
      apply Qlt_le_weak. now apply Qinv_lt_0_compat. }
    lra. }
  exists q1, q2. repeat split; [assumption|]. now apply severity_mono_Fin.
Qed.

Lemma composite_risk_monotone_witness :
  exists q1 q2,
    nth_error (MlEngine.compute_risk_score
                 [Sample.quiet;
                  Sample.row "10.0.0.2" 50 (1 # 2) (9 # 10) (Fin 1) "Anomaly"]) 0
    = Some (Fin q1)
    /\ nth_error (MlEngine.compute_risk_score
                    [Sample.quiet;
                     Sample.row "10.0.0.2" 50 (1 # 2) (9 # 10) (Fin 1) "Anomaly"]) 1
       = Some (Fin q2)
    /\ q1 <= q2
    /\ severity_le (MlEngine.severity (Fin q1)) (MlEngine.severity (Fin q2)).
Proof.
  apply (composite_risk_monotone
           [Sample.quiet;
            Sample.row "10.0.0.2" 50 (1 # 2) (9 # 10) (Fin 1) "Anomaly"]
           50 (1 # 2) 0 1 Sample.quiet
           (Sample.row "10.0.0.2" 50 (1 # 2) (9 # 10) (Fin 1) "Anomaly")).
  - reflexivity.
  - reflexivity.
  - reflexivity.
  - reflexivity.
  - reflexivity.
  - reflexivity.
  - simpl. lia.
  - simpl. q_order.
  - simpl. q_order.
Defined.

(** ** explainability.py: which reasons, which action *)

Section ExplainByChecks.

Import PyStr.
Local Open Scope string_scope.

(** [explain_row] in terms of the five named conditions. *)
Lemma explain_row_checks (fmt : float64 -> string) (df : Frame)
      (baseline : Baseline) (row : Row) (deviation : float64) :
  explain_row fmt df baseline row deviation
  = let reasons :=
      append_if (endpoint_check df baseline row)
        (append_if (payload_check df baseline row)
           (append_if (latency_check baseline row)
              (append_if (error_check baseline row)
                 (append_if (rate_check baseline row) []
                    ("Request rate exceeded baseline by "
                     ++ fmt deviation ++ times_sign))
                 "Unusually high error rate observed")
              "Response time significantly higher than baseline")
           "Abnormally large request payloads")
        "Accessing unusually high number of endpoints" in
    join "; " match reasons with
              | [] => reasons ++ [fallback_reason]
              | _ :: _ => reasons
              end.
Proof. reflexivity. Qed.

(** X13: the generic fallback is the explanation exactly when none of the
    five deviation checks fires. *)
Theorem fallback_iff_no_check_fires :
  forall (fmt : float64 -> string) (df : Frame) (baseline : Baseline)
         (row : Row) (deviation : float64),
    explain_row fmt df baseline row deviation = fallback_reason
    <-> rate_check baseline row = false
        /\ error_check baseline row = false
        /\ latency_check baseline row = false
        /\ payload_check df baseline row = false
        /\ endpoint_check df baseline row = false.
Proof.
  intros fmt df baseline row deviation. rewrite explain_row_checks.
  destruct (rate_check baseline row), (error_check baseline row),
    (latency_check baseline row), (payload_check df baseline row),
    (endpoint_check df baseline row);
    cbn [append_if app]; cbv zeta; rewrite ?join_cons;
    (split; [intros H; try discriminate H | intros (H1 & H2 & H3 & H4 & H5);
                                           try discriminate]);
    repeat split.
Qed.

End ExplainByChecks.

Section RecommendByChecks.

Import PyStr.
Local Open Scope string_scope.

Lemma lower_in_alphabet (a c : ascii) (alphabet : string) :
  free_of a alphabet = false ->
  free_of c (lower alphabet) = true ->
  lower_ascii a <> c.
Proof.
  induction alphabet as [|x alphabet IH]; simpl; [discriminate|].
  intros Ha Hc. apply andb_true_iff in Hc as [Hx Hc].
  destruct (Ascii.eqb_spec x a) as [-> | Hne].
  - now apply negb_true_iff, Ascii.eqb_neq in Hx.
  - simpl in Ha. now apply IH.
Qed.

Lemma over_free_of_lower (c : ascii) (alphabet s : string) :
  over alphabet s = true ->
  free_of c (lower alphabet) = true ->
  free_of c (lower s) = true.
Proof.
  intros Hs Hc. induction s as [|a s IH]; [reflexivity|].
  simpl in *. apply andb_true_iff in Hs as [Ha Hs].
  apply negb_true_iff in Ha. rewrite (IH Hs), andb_true_r.
  apply negb_true_iff, Ascii.eqb_neq. now apply (lower_in_alphabet a c alphabet).
Qed.

(** A needle cannot start inside a stretch that lacks its second byte, when
    what follows the stretch does not start with that byte either. *)
Lemma contains_skip_second (a b : ascii) (needle p rest : string) :
  free_of b p = true ->
  String.prefix (String b EmptyString) rest = false ->
  contains (String a (String b needle)) (p ++ rest)
  = contains (String a (String b needle)) rest.
Proof.
  intros Hfree Hrest. induction p as [|x p IH]; [reflexivity|].
  simpl in Hfree. apply andb_true_iff in Hfree as [_ Hp].
  change (String x p ++ rest) with (String x (p ++ rest)).
  cbn [contains]. rewrite (IH Hp).
  assert (Hno : String.prefix (String a (String b needle)) (String x (p ++ rest))
                = false).
  { cbn [String.prefix]. destruct (ascii_dec a x); [|reflexivity].
    destruct p as [|y p].
    - change ("" ++ rest) with rest.
      destruct rest as [|z rest]; [reflexivity|].
      cbn [String.prefix] in *.
      destruct (ascii_dec b z); [|reflexivity].
      destruct rest; discriminate Hrest.
    - simpl in Hp. apply andb_true_iff in Hp as [Hy _].
      apply negb_true_iff, Ascii.eqb_neq in Hy.
      change (String y p ++ rest) with (String y (p ++ rest)).
      cbn [String.prefix]. destruct (ascii_dec b y); [congruence | reflexivity]. }
  rewrite Hno. reflexivity.
Qed.

Variable fmt : float64 -> string.
Hypothesis fmt_alphabet : forall x, over float_alphabet (fmt x) = true.

Lemma fmt_free_of (c : ascii) (x : float64) :
  free_of c (lower float_alphabet) = true ->
  free_of c (lower (fmt x)) = true.
Proof. apply over_free_of_lower, fmt_alphabet. Qed.

Lemma rate_reason_no_payload (rest : string) (x : float64) :
  contains "payload"
    (lower (("Request rate exceeded baseline by " ++ fmt x ++ times_sign) ++ rest))
  = contains "payload" (lower rest).
Proof.
  rewrite lower_app. apply contains_skip.
  rewrite !lower_app, !free_of_app, fmt_free_of; reflexivity.
Qed.

Lemma rate_reason_no_error_rate (rest : string) (x : float64) :
  contains "error rate"
    (lower (("Request rate exceeded baseline by " ++ fmt x ++ times_sign) ++ rest))
  = contains "error rate" (lower rest).
Proof.
  rewrite !lower_app, !append_assoc.
  change (lower "Request rate exceeded baseline by ")
    with "request rate exceeded baseline by ".
  transitivity (contains "error rate"
                  (lower (fmt x) ++ lower times_sign ++ lower rest)).
  { generalize (lower (fmt x) ++ lower times_sign ++ lower rest). intros y.
    reflexivity. }
  rewrite contains_skip_second; [reflexivity | | reflexivity].
  apply fmt_free_of. reflexivity.
Qed.

(** The recommender on the explainer's text, by the checks that fired. *)
Lemma recommend_rule_on_explanation :
  forall (df : Frame) (baseline : Baseline) (row : Row) (deviation : float64),
    RuleEngine.recommend_rule "Anomaly"
      (explain_row fmt df baseline row deviation)
    = if error_check baseline row then "Temporarily block IP"
      else if payload_check df baseline row
           then "Inspect payload and block if repeated"
           else "Monitor traffic closely".
Proof.
  intros df baseline row deviation. rewrite explain_row_checks.
  unfold RuleEngine.recommend_rule.
  destruct (rate_check baseline row), (error_check baseline row),
    (latency_check baseline row), (payload_check df baseline row),
    (endpoint_check df baseline row);
    cbn [append_if app]; cbv zeta; try reflexivity;
    rewrite join_cons;
    change "high request rate" with (String "h" "igh request rate");
    rewrite rate_reason_skipped
      by (intros x; apply fmt_free_of; reflexivity);
    rewrite rate_reason_no_error_rate, rate_reason_no_payload; reflexivity.
Qed.

End RecommendByChecks.

(** X14: on a flagged record the keyword recommender, fed the explainer's
    text, is decided by two of the five checks: "Temporarily block IP" when
    the error-rate check fired; otherwise "Inspect payload and block if
    repeated" when the payload check fired; otherwise "Monitor traffic
    closely", also when the rate, latency or endpoint check fired. *)
Theorem recommended_action_by_checks :
  forall (fmt : float64 -> string) (df : Frame) (baseline : Baseline)
         (row : Row) (deviation : float64),
    (forall x, PyStr.over PyStr.float_alphabet (fmt x) = true) ->
    RuleEngine.recommend_rule "Anomaly"
      (explain_row fmt df baseline row deviation)
    = if error_check baseline row then "Temporarily block IP"%string
      else if payload_check df baseline row
           then "Inspect payload and block if repeated"%string
           else "Monitor traffic closely"%string.
Proof.
  intros fmt df baseline row deviation Hfmt.
  now apply recommend_rule_on_explanation.
Qed.

Lemma over_app (alphabet a b : string) :
  PyStr.over alphabet (a ++ b) = PyStr.over alphabet a && PyStr.over alphabet b.
Proof.
  induction a as [|x a IH]; simpl; [reflexivity|].
  now rewrite IH, andb_assoc.
Qed.

Lemma digits_over_alphabet (u : Decimal.uint) :
  PyStr.over PyStr.float_alphabet (NilEmpty.string_of_uint u) = true.
Proof. induction u; simpl; auto. Qed.

Lemma sample_digits_over_alphabet (z : Z) :
  PyStr.over PyStr.float_alphabet (Sample.digits z) = true.
Proof.
  unfold Sample.digits, NilZero.string_of_uint.
  destruct (N.to_uint (Z.to_N z)) eqn:E; try reflexivity;
    rewrite <- E; apply digits_over_alphabet.
Qed.

(** The sample formatter stays within the alphabet of floats. *)
Lemma format_fixed_alphabet (x : float64) :
  PyStr.over PyStr.float_alphabet (Sample.format_fixed x) = true.
Proof.
  destruct x as [q| | |]; try reflexivity.
  unfold Sample.format_fixed.
  repeat rewrite over_app. repeat rewrite sample_digits_over_alphabet.
  destruct (_ <? 0)%Z, (_ =? 0)%Z; try reflexivity;
    now rewrite sample_digits_over_alphabet.
Qed.

Lemma recommended_action_by_checks_witness :
  RuleEngine.recommend_rule "Anomaly"
    (explain_row Sample.format_fixed Sample.frame
       (learn_baseline Sample.frame) Sample.burst (Fin (75 # 100)))
  = "Temporarily block IP"%string.
Proof.
  apply (recommended_action_by_checks Sample.format_fixed Sample.frame
           (learn_baseline Sample.frame) Sample.burst (Fin (75 # 100))).
  exact format_fixed_alphabet.
Defined.

(** ** explainability.py: when the baseline is defined *)

Lemma series_sum_ge_length (xs : list Q) :
  (forall x, In x xs -> 1 <= x) ->
  inject_Z (Z.of_nat (List.length xs)) <= series_sum xs.
Proof.
  induction xs as [|x xs IH]; intros H.
  - apply Qle_refl.
  - cbn [List.length series_sum fold_right].
    rewrite Nat2Z.inj_succ, <- Z.add_1_r, inject_Z_plus.
    assert (H1 : 1 <= x) by (apply H; now left).
    assert (H2 : inject_Z (Z.of_nat (List.length xs)) <= series_sum xs).
    { apply IH. intros y Hy. apply H. now right. }
    unfold series_sum in H2. change (inject_Z 1) with 1. lra.
Qed.

Lemma series_mean_nonempty (xs : list Q) :
  xs <> [] ->
  series_mean xs
  = Fin (series_sum xs / inject_Z (Z.of_nat (List.length xs))).
Proof.
  intros Hne. unfold series_mean, F.of_Z. apply div_pos.
  destruct xs as [|x xs]; [congruence|].
  change 0 with (inject_Z 0). rewrite <- Zlt_Qlt. simpl. lia.
Qed.

(** X15: with at least one record labeled Normal and request counts of at
    least 1 (a group of the aggregation is never empty), the baseline
    request rate is a number of at least 1 and every request-rate deviation
    is a non-negative number: [NaN] deviations arise only from a batch
    without Normal records. *)
Theorem deviation_defined_with_normal_records :
  forall (fmt : float64 -> string) (df : Frame),
    (exists r, In r (rows df) /\ anomaly_label r = "Normal"%string) ->
    (forall r, In r (rows df) -> (1 <= req_per_min r)%Z) ->
    exists out,
      generate_explanations fmt df = Ok out
      /\ (exists m, base_req_per_min (learn_baseline df) = Fin m /\ 1 <= m)
      /\ forall d, In d (req_rate_deviation out) ->
                   exists q, d = Fin q /\ 0 <= q.
Proof.
  intros fmt df (r0 & Hr0 & Hlab) Hreq.
  eexists. split; [reflexivity|].
  set (normal := filter is_normal (rows df)).
  assert (Hin0 : In r0 normal).
  { apply filter_In. split; [assumption|]. unfold is_normal. now rewrite Hlab. }
  assert (Hne : map (fun r => inject_Z (req_per_min r)) normal <> []).
  { destruct normal; [destruct Hin0 | discriminate]. }
  assert (Hmean : exists m, base_req_per_min (learn_baseline df) = Fin m /\ 1 <= m).
  { unfold learn_baseline. cbn [base_req_per_min]. fold normal.
    rewrite (series_mean_nonempty _ Hne). eexists. split; [reflexivity|].
    apply Qle_shift_div_l.
    - change 0 with (inject_Z 0). rewrite <- Zlt_Qlt.
      destruct (map _ normal); [congruence | simpl; lia].
    - rewrite Qmult_1_l. apply series_sum_ge_length.
      intros x Hx. apply in_map_iff in Hx as (r & <- & Hr).
      apply filter_In in Hr as [Hr _].
      change 1 with (inject_Z 1). rewrite <- Zle_Qle. now apply Hreq. }
  split; [exact Hmean|].
  destruct Hmean as (m & Hm & Hm1).
  intros d Hd. cbn [req_rate_deviation] in Hd.
  apply in_map_iff in Hd as (r & <- & Hr). rewrite Hm.
  rewrite inject_Z_pos_compare by lra.
  simpl. eexists. split; [reflexivity|].
  assert (Hq : 0 <= inject_Z (req_per_min r) / m).
  { apply Qle_shift_div_l; [lra|]. rewrite Qmult_0_l.
    change 0 with (inject_Z 0). rewrite <- Zle_Qle.
    specialize (Hreq r Hr). lia. }
  assert (Hz : (0 <= F.rint (inject_Z (req_per_min r) / m * 100))%Z).
  { apply rint_ge_Z. change (inject_Z 0) with 0. lra. }
  unfold Qle. simpl. lia.
Qed.

Lemma deviation_defined_with_normal_records_witness :
  exists out,
    generate_explanations Sample.format_fixed Sample.frame = Ok out
    /\ (exists m, base_req_per_min (learn_baseline Sample.frame) = Fin m /\ 1 <= m)
    /\ forall d, In d (req_rate_deviation out) -> exists q, d = Fin q /\ 0 <= q.
Proof.
  apply (deviation_defined_with_normal_records Sample.format_fixed Sample.frame).
  - exists Sample.quiet. split; [now left | reflexivity].
  - intros r [<- | [<- | []]]; simpl; lia.
Defined.

Lemma series_sum_zero (xs : list Q) :
  (forall x, In x xs -> x == 0) -> series_sum xs == 0.
Proof.
  induction xs as [|x xs IH]; intros H; [reflexivity|].
  cbn [series_sum fold_right].
  assert (H1 : x == 0) by (apply H; now left).
  assert (H2 : series_sum xs == 0) by (apply IH; intros y Hy; apply H; now right).
  unfold series_sum in H2. rewrite H1, H2. reflexivity.
Qed.

(** X16: when the records labeled Normal (at least one) are all free of
    errors, the baseline error rate is zero and the threshold "twice the
    baseline" is zero too: every flagged record with any error at all gets
    the error-rate reason, and with it the action "Temporarily block IP". *)
Theorem error_free_baseline_flags_any_error :
  forall (fmt : float64 -> string) (df : Frame) (row : Row) (deviation : float64),
    (forall x, PyStr.over PyStr.float_alphabet (fmt x) = true) ->
    (exists r, In r (rows df) /\ anomaly_label r = "Normal"%string) ->
    (forall r, In r (rows df) -> anomaly_label r = "Normal"%string ->
               error_rate r == 0) ->
    0 < error_rate row ->
    error_check (learn_baseline df) row = true
    /\ RuleEngine.recommend_rule "Anomaly"
         (explain_row fmt df (learn_baseline df) row deviation)
       = "Temporarily block IP"%string.
Proof.
  intros fmt df row deviation Hfmt (r0 & Hr0 & Hlab) Hzero Herr.
  assert (Hcheck : error_check (learn_baseline df) row = true).
  { unfold error_check, learn_baseline. cbn [base_error_rate].
    set (normal := filter is_normal (rows df)).
    assert (Hne : map error_rate normal <> []).
    { assert (Hin0 : In r0 normal).
      { apply filter_In. split; [assumption|]. unfold is_normal. now rewrite Hlab. }
      destruct normal; [destruct Hin0 | discriminate]. }
    rewrite (series_mean_nonempty _ Hne). cbn [F.mul].
    assert (Hs : series_sum (map error_rate normal) == 0).
    { apply series_sum_zero. intros x Hx.
      apply in_map_iff in Hx as (r & <- & Hr).
      apply filter_In in Hr as [Hr Hn]. apply Hzero; [assumption|].
      unfold is_normal in Hn. now apply String.eqb_eq in Hn. }
    unfold F.gtb, F.ltb.
    destruct (Qcompare_spec
                (series_sum (map error_rate normal)
                 / inject_Z (Z.of_nat (List.length (map error_rate normal))) * 2)
                (error_rate row)) as [E | E | E]; [|reflexivity|].
    - rewrite Hs in E. unfold Qdiv in E. rewrite Qmult_0_l in E. lra.
    - rewrite Hs in E. unfold Qdiv in E. rewrite Qmult_0_l in E. lra. }
  split; [exact Hcheck|].
  rewrite (recommend_rule_on_explanation fmt Hfmt), Hcheck. reflexivity.
Qed.

Lemma error_free_baseline_flags_any_error_witness :
  error_check
    (learn_baseline
       {| rows := [Sample.row "10.0.0.1" 40 (3 # 10) 0 (Fin 1) "Normal";
                   Sample.row "10.0.0.2" 41 (3 # 10) (1 # 100) (Fin 1) "Anomaly"];
          has_avg_req_size := true; has_unique_endpoints := true |})
    (Sample.row "10.0.0.2" 41 (3 # 10) (1 # 100) (Fin 1) "Anomaly") = true
  /\ RuleEngine.recommend_rule "Anomaly"
       (explain_row Sample.format_fixed
          {| rows := [Sample.row "10.0.0.1" 40 (3 # 10) 0 (Fin 1) "Normal";
                      Sample.row "10.0.0.2" 41 (3 # 10) (1 # 100) (Fin 1) "Anomaly"];
             has_avg_req_size := true; has_unique_endpoints := true |}
          (learn_baseline
             {| rows := [Sample.row "10.0.0.1" 40 (3 # 10) 0 (Fin 1) "Normal";
                         Sample.row "10.0.0.2" 41 (3 # 10) (1 # 100) (Fin 1) "Anomaly"];
                has_avg_req_size := true; has_unique_endpoints := true |})
          (Sample.row "10.0.0.2" 41 (3 # 10) (1 # 100) (Fin 1) "Anomaly")
          (Fin (103 # 100)))
     = "Temporarily block IP"%string.
Proof.
  apply (error_free_baseline_flags_any_error Sample.format_fixed).
  - exact format_fixed_alphabet.
  - eexists. split; [left; reflexivity | reflexivity].
  - intros r [<- | [<- | []]] H; [reflexivity | discriminate H].
  - q_order.
Defined.

(** ** feature_engineering.py: what the aggregation guarantees *)

Section AggregationFacts.

Import Aggregation.

Lemma key_eqb_eq (k k' : key) : key_eqb k k' = true <-> k = k'.
Proof. unfold key_eqb. destruct (key_dec k k'); split; congruence. Qed.

Lemma insert_perm (k : key) (ks : list key) : Permutation (insert k ks) (k :: ks).
Proof.
  induction ks as [|k' ks IH]; simpl; [reflexivity|].
  destruct (key_compare k k'); try reflexivity.
  eapply perm_trans; [apply perm_skip, IH | apply perm_swap].
Qed.

Lemma sort_perm (ks : list key) : Permutation (sort ks) ks.
Proof.
  induction ks as [|k ks IH]; simpl; [reflexivity|].
  eapply perm_trans; [apply insert_perm | now apply perm_skip].
Qed.

Lemma group_keys_NoDup (events : list Raw.Event) : NoDup (group_keys events).
Proof.
  unfold group_keys. eapply Permutation_NoDup.
  - symmetry. apply sort_perm.
  - apply NoDup_nodup.
Qed.

Lemma group_keys_In (events : list Raw.Event) (k : key) :
  In k (group_keys events) <-> exists e, In e events /\ key_of e = k.
Proof.
  unfold group_keys. split.
  - intros H. apply (Permutation_in _ (sort_perm _)) in H.
    apply nodup_In, in_map_iff in H as (e & He & Hin). now exists e.
  - intros (e & Hin & He).
    apply (Permutation_in _ (Permutation_sym (sort_perm _))).
    apply nodup_In, in_map_iff. now exists e.
Qed.

Lemma group_In (events : list Raw.Event) (k : key) (e : Raw.Event) :
  In e (group events k) <-> In e events /\ key_of e = k.
Proof. unfold group. now rewrite filter_In, key_eqb_eq. Qed.

Lemma group_nonempty (events : list Raw.Event) (k : key) :
  In k (group_keys events) -> group events k <> [].
Proof.
  intros H. apply group_keys_In in H as (e & Hin & He).
  assert (In e (group events k)) by now apply group_In.
  intros E. rewrite E in *. contradiction.
Qed.

(** Each event is counted in the group of its key and in no other. *)
Lemma count_in_groups (e : Raw.Event) (ks : list key) :
  NoDup ks -> In (key_of e) ks ->
  fold_right Z.add 0%Z
    (map (fun k => if key_eqb (key_of e) k then 1%Z else 0%Z) ks) = 1%Z.
Proof.
  induction ks as [|k ks IH]; intros Hnd Hin; [destruct Hin|].
  inversion Hnd as [|? ? Hk Hnd']; subst. simpl.
  destruct (key_dec (key_of e) k) as [E | E].
  - assert (H0 : fold_right Z.add 0%Z
                   (map (fun k => if key_eqb (key_of e) k then 1%Z else 0%Z) ks)
                 = 0%Z).
    { clear IH Hin Hnd Hnd'. subst k.
      induction ks as [|k' ks IH]; [reflexivity|]. simpl.
      unfold key_eqb at 1. destruct (key_dec (key_of e) k') as [E' | _].
      - elim Hk. now left.
      - rewrite IH; [reflexivity|]. intros H. apply Hk. now right. }
    unfold key_eqb at 1. destruct (key_dec (key_of e) k); [lia | contradiction].
  - unfold key_eqb at 1. destruct (key_dec (key_of e) k); [contradiction|].
    destruct Hin as [Hin | Hin]; [congruence|]. now rewrite IH.
Qed.

Lemma groups_partition (events : list Raw.Event) (ks : list key) :
  NoDup ks ->
  (forall e, In e events -> In (key_of e) ks) ->
  fold_right Z.add 0%Z
    (map (fun k => Z.of_nat (List.length (group events k))) ks)
  = Z.of_nat (List.length events).
Proof.
  intros Hnd. induction events as [|e events IH]; intros Hall.
  - simpl. induction ks as [|k ks IHk]; [reflexivity|].
    inversion Hnd; subst. simpl. now rewrite IHk.
  - assert (Hsplit : forall l,
              fold_right Z.add 0%Z
                (map (fun k => Z.of_nat (List.length (group (e :: events) k))) l)
              = (fold_right Z.add 0%Z
                   (map (fun k => if key_eqb (key_of e) k then 1%Z else 0%Z) l)
                 + fold_right Z.add 0%Z
                     (map (fun k => Z.of_nat (List.length (group events k))) l))%Z).
    { induction l as [|k l IHl]; [reflexivity|].
      cbn [map fold_right]. rewrite IHl.
      unfold group. cbn [filter].
      destruct (key_eqb (key_of e) k); cbn [List.length]; lia. }
    rewrite Hsplit, IH, count_in_groups; auto.
    + simpl List.length. lia.
    + apply Hall. now left.
    + intros e' He'. apply Hall. now right.
Qed.

Lemma aggregate_In (events : list Raw.Event) (a : Aggregate) :
  In a (aggregate events) <->
  exists k, In k (group_keys events) /\ a = aggregate_group events k.
Proof.
  unfold aggregate. rewrite in_map_iff. split; intros (k & H1 & H2).
  - now exists k.
  - now exists k.
Qed.

Lemma aggregate_partitions_events_aux (events : list Raw.Event) (e : Raw.Event) :
  In e events -> exists a, In a (aggregate events).
Proof.
  intros He. exists (aggregate_group events (key_of e)).
  apply aggregate_In. exists (key_of e). split; [|reflexivity].
  apply group_keys_In. now exists e.
Qed.

(** X17: the aggregation yields exactly one row per (address, minute) pair
    present in the log, every event falls in the row of its pair, and the
    request counts of the rows add up to the number of events. *)
Theorem aggregate_partitions_events :
  forall events : list Raw.Event,
    NoDup (map (fun a => (agg_ip a, agg_time_window a)) (aggregate events))
    /\ (forall e, In e events ->
          exists a, In a (aggregate events)
                    /\ (agg_ip a, agg_time_window a) = key_of e)
    /\ fold_right Z.add 0%Z (map agg_req_per_min (aggregate events))
       = Z.of_nat (List.length events).
Proof.
  intros events. unfold aggregate. rewrite !map_map.
  split; [|split].
  - rewrite (map_ext (fun k => (agg_ip (aggregate_group events k),
                                agg_time_window (aggregate_group events k)))
                     (fun k => k)) by (intros [i w]; reflexivity).
    rewrite map_id. apply group_keys_NoDup.
  - intros e He. exists (aggregate_group events (key_of e)). split.
    + apply in_map. apply group_keys_In. now exists e.
    + reflexivity.
  - rewrite (map_ext (fun k => agg_req_per_min (aggregate_group events k))
                     (fun k => Z.of_nat (List.length (group events k))))
      by (intros k; simpl; now rewrite length_map).
    apply groups_partition; [apply group_keys_NoDup|].
    intros e He. apply group_keys_In. now exists e.
Qed.

End AggregationFacts.

Section AggregationRanges.

Import Aggregation.

Lemma series_sum_bounds (xs : list Z) (lo hi : Z) :
  (forall x, In x xs -> (lo <= x <= hi)%Z) ->
  inject_Z (Z.of_nat (List.length xs)) * inject_Z lo
  <= series_sum (map inject_Z xs)
  /\ series_sum (map inject_Z xs)
     <= inject_Z (Z.of_nat (List.length xs)) * inject_Z hi.
Proof.
  induction xs as [|x xs IH]; intros H.
  - simpl. split; apply Qle_refl.
  - cbn [List.length map series_sum fold_right].
    rewrite Nat2Z.inj_succ, <- Z.add_1_r, inject_Z_plus.
    destruct IH as [IH1 IH2]. { intros y Hy. apply H. now right. }
    destruct (H x (or_introl eq_refl)) as [Hlo Hhi].
    rewrite Zle_Qle in Hlo, Hhi. unfold series_sum in IH1, IH2.
    change (inject_Z 1) with 1. split; nra.
Qed.

Lemma length_pos_Q (A : Type) (xs : list A) :
  xs <> [] -> 0 < inject_Z (Z.of_nat (List.length xs)).
Proof.
  intros H. change 0 with (inject_Z 0). rewrite <- Zlt_Qlt.
  destruct xs; [congruence | simpl; lia].
Qed.

(** The mean of a non-empty column lies between its bounds. *)
Lemma mean_bounds (xs : list Z) (lo hi : Z) :
  xs <> [] ->
  (forall x, In x xs -> (lo <= x <= hi)%Z) ->
  inject_Z lo <= mean xs /\ mean xs <= inject_Z hi.
Proof.
  intros Hne H. unfold mean.
  pose proof (length_pos_Q _ xs Hne) as Hn.
  destruct (series_sum_bounds xs lo hi H) as [H1 H2]. split.
  - apply Qle_shift_div_l; [assumption | lra].
  - apply Qle_shift_div_r; [assumption | lra].
Qed.

Lemma nodup_length_le (xs : list string) :
  (List.length (nodup string_dec xs) <= List.length xs)%nat.
Proof.
  induction xs as [|x xs IH]; simpl; [lia|].
  destruct (in_dec string_dec x xs); simpl; lia.
Qed.

Lemma nunique_bounds (xs : list string) :
  xs <> [] -> (1 <= nunique xs <= Z.of_nat (List.length xs))%Z.
Proof.
  intros Hne. unfold nunique. pose proof (nodup_length_le xs) as Hle.
  destruct xs as [|x xs]; [congruence|].
  assert (Hin : In x (nodup string_dec (x :: xs))) by (apply nodup_In; now left).
  destruct (nodup string_dec (x :: xs)); [destruct Hin | simpl in *; lia].
Qed.

Lemma is_error_01 (s : Z) : (0 <= is_error s <= 1)%Z.
Proof. unfold is_error. destruct (s >=? 400)%Z; lia. Qed.

Lemma aggregate_group_ranges (events : list Raw.Event) (k : key) :
  In k (group_keys events) ->
  (1 <= agg_req_per_min (aggregate_group events k))%Z
  /\ 0 <= agg_error_rate (aggregate_group events k)
  /\ agg_error_rate (aggregate_group events k) <= 1
  /\ (1 <= agg_unique_endpoints (aggregate_group events k)
      <= agg_req_per_min (aggregate_group events k))%Z.
Proof.
  intros Hk. pose proof (group_nonempty events k Hk) as Hne.
  unfold aggregate_group. cbn [agg_req_per_min agg_error_rate agg_unique_endpoints].
  assert (Hne' : forall (B : Type) (f : Raw.Event -> B), map f (group events k) <> []).
  { intros B f. destruct (group events k); [congruence | discriminate]. }
  repeat split.
  - rewrite length_map. destruct (group events k); [congruence | simpl; lia].
  - apply (mean_bounds _ 0 1 (Hne' _ _)).
    intros x Hx. apply in_map_iff in Hx as (e & <- & _). apply is_error_01.
  - apply (mean_bounds _ 0 1 (Hne' _ _)).
    intros x Hx. apply in_map_iff in Hx as (e & <- & _). apply is_error_01.
  - apply (nunique_bounds _ (Hne' _ _)).
  - rewrite length_map.
    rewrite <- (length_map Raw.endpoint (group events k)).
    apply (nunique_bounds _ (Hne' _ _)).
Qed.

(** The rows of the feature table, one per aggregate. *)
Lemma features_In (events : list Raw.Event) (v : FeatureVector) :
  In v (features events) <->
  exists a, In a (aggregate events)
    /\ v = {| ip := agg_ip a;
              req_per_min := agg_req_per_min a;
              avg_resp_time := agg_avg_resp_time a;
              error_rate := agg_error_rate a;
              avg_req_size := agg_avg_req_size a;
              unique_endpoints := agg_unique_endpoints a;
              burst_score :=
                (F.of_Z (agg_req_per_min a)
                 / series_max (map inject_Z (map agg_req_per_min (aggregate events))))%f64 |}.
Proof.
  unfold features, FeatureEngineering.burst_score_column. cbv zeta.
  rewrite (map_map agg_req_per_min), map_combine_map, in_map_iff.
  split; intros (a & H1 & H2).
  - exists a. split; [assumption | now symmetry].
  - exists a. split; [now symmetry | assumption].
Qed.

Lemma req_column_max (events : list Raw.Event) (a : Aggregate) :
  In a (aggregate events) ->
  exists m,
    series_max (map inject_Z (map agg_req_per_min (aggregate events))) = Fin m
    /\ 1 <= m
    /\ inject_Z (agg_req_per_min a) <= m.
Proof.
  intros Ha.
  assert (Hin : In (inject_Z (agg_req_per_min a))
                   (map inject_Z (map agg_req_per_min (aggregate events)))).
  { apply in_map. now apply in_map. }
  destruct (series_max_nonempty
              (map inject_Z (map agg_req_per_min (aggregate events))))
    as [m Hm].
  { intros E. rewrite E in Hin. destruct Hin. }
  exists m. split; [assumption|].
  pose proof (series_max_upper _ _ Hm _ Hin) as Hle. split; [|assumption].
  apply aggregate_In in Ha as (k & Hk & ->).
  destruct (aggregate_group_ranges events k Hk) as [H1 _].
  rewrite Zle_Qle in H1. change (inject_Z 1) with 1 in H1. lra.
Qed.

(** X18: every row of the feature table is in range: at least one request,
    an error rate in [0,1], between one and [req_per_min] distinct
    endpoints, and a burst score that is a number of (0,1]; the division
    by the batch maximum never meets a zero. *)
Theorem feature_vector_ranges :
  forall (events : list Raw.Event) (v : FeatureVector),
    In v (features events) ->
    (1 <= req_per_min v)%Z
    /\ 0 <= error_rate v /\ error_rate v <= 1
    /\ (1 <= unique_endpoints v <= req_per_min v)%Z
    /\ exists b, burst_score v = Fin b /\ 0 < b /\ b <= 1.
Proof.
  intros events v Hv. apply features_In in Hv as (a & Ha & ->).
  cbn [req_per_min error_rate unique_endpoints burst_score].
  destruct (req_column_max events a Ha) as (m & Hm & Hm1 & Hle).
  apply aggregate_In in Ha as (k & Hk & ->).
  destruct (aggregate_group_ranges events k Hk) as (H1 & H2 & H3 & H4).
  repeat split; try assumption; try apply H4.
  rewrite Hm, inject_Z_pos_compare by lra.
  eexists. split; [reflexivity|].
  assert (Hq : 1 <= inject_Z (agg_req_per_min (aggregate_group events k))).
  { rewrite Zle_Qle in H1. exact H1. }
  split.
  - apply Qlt_shift_div_l; lra.
  - apply Qle_shift_div_r; lra.
Qed.

(** X19: in a non-empty log some row carries the batch maximum, and its
    burst score is 1. *)
Theorem some_burst_score_is_one :
  forall events : list Raw.Event,
    events <> [] ->
    exists v b, In v (features events) /\ burst_score v = Fin b /\ b == 1.
Proof.
  intros events Hne.
  destruct events as [|e events]; [congruence|].
  destruct (aggregate_partitions_events_aux (e :: events) e (or_introl eq_refl))
    as (a0 & Ha0).
  destruct (req_column_max _ a0 Ha0) as (m & Hm & Hm1 & _).
  pose proof (series_max_In _ _ Hm) as Hin.
  apply in_map_iff in Hin as (z & <- & Hz).
  apply in_map_iff in Hz as (a & <- & Ha).
  eexists. exists (inject_Z (agg_req_per_min a) / inject_Z (agg_req_per_min a)).
  split; [apply features_In; exists a; split; [exact Ha | reflexivity]|].
  cbn [burst_score]. split.
  - rewrite Hm. apply inject_Z_pos_compare. lra.
  - field. lra.
Qed.

Lemma series_sum_all_ones (xs : list Z) :
  (forall x, In x xs -> (0 <= x <= 1)%Z) ->
  series_sum (map inject_Z xs) == inject_Z (Z.of_nat (List.length xs))
  <-> forall x, In x xs -> x = 1%Z.
Proof.
  intros H01. pose proof (series_sum_bounds xs 0 1 H01) as [_ Hup].
  induction xs as [|x xs IH]; [split; [intros _ ? [] | reflexivity]|].
  assert (H01' : forall y, In y xs -> (0 <= y <= 1)%Z)
    by (intros y Hy; apply H01; now right).
  pose proof (series_sum_bounds xs 0 1 H01') as [_ Hup'].
  destruct (H01 x (or_introl eq_refl)) as [Hx0 Hx1].
  cbn [List.length map series_sum fold_right] in *.
  rewrite Nat2Z.inj_succ, <- Z.add_1_r, inject_Z_plus in *.
  change (inject_Z 1) with 1 in *. unfold series_sum in *.
  assert (Hxq : inject_Z x <= 1).
  { rewrite Zle_Qle in Hx1. exact Hx1. }
  split.
  - intros Hsum y [<- | Hy].
    + assert (Hge : 1 <= inject_Z x) by lra.
      change 1 with (inject_Z 1) in Hge. rewrite <- Zle_Qle in Hge. lia.
    + apply IH; try assumption. lra.
  - intros Hall. rewrite (Hall x (or_introl eq_refl)).
    assert (Hrest : fold_right Qplus 0 (map inject_Z xs)
                    == inject_Z (Z.of_nat (List.length xs))).
    { apply IH; try assumption. intros y Hy. apply Hall. now right. }
    rewrite Hrest. change (inject_Z 1) with 1. ring.
Qed.

Lemma mean_is_one (xs : list Z) :
  xs <> [] ->
  (forall x, In x xs -> (0 <= x <= 1)%Z) ->
  mean xs == 1 <-> forall x, In x xs -> x = 1%Z.
Proof.
  intros Hne H01. rewrite <- (series_sum_all_ones xs H01). unfold mean.
  pose proof (length_pos_Q _ xs Hne) as Hn. split; intros H.
  - rewrite <- (Qmult_div_r (series_sum (map inject_Z xs))
                  (inject_Z (Z.of_nat (List.length xs)))) by lra.
    rewrite H. ring.
  - rewrite H. field. lra.
Qed.

(** X20: the error rate of a row is 1 exactly when every request of its
    group failed (status 400 or more). *)
Theorem error_rate_one_iff_all_failed :
  forall (events : list Raw.Event) (a : Aggregate),
    In a (aggregate events) ->
    agg_error_rate a == 1
    <-> forall e, In e events ->
                  key_of e = (agg_ip a, agg_time_window a) ->
                  (400 <= Raw.status e)%Z.
Proof.
  intros events a Ha. apply aggregate_In in Ha as (k & Hk & ->).
  cbn [aggregate_group agg_error_rate agg_ip agg_time_window].
  rewrite <- surjective_pairing.
  rewrite mean_is_one.
  - split.
    + intros H e He Hkey.
      assert (H1 : is_error (Raw.status e) = 1%Z).
      { apply H. apply in_map_iff. exists e. split; [reflexivity|].
        now apply group_In. }
      unfold is_error in H1. destruct (Z.geb_spec (Raw.status e) 400); [lia | discriminate].
    + intros H x Hx. apply in_map_iff in Hx as (e & <- & He).
      apply group_In in He as [He Hkey]. specialize (H e He Hkey).
      unfold is_error. destruct (Z.geb_spec (Raw.status e) 400); [reflexivity | lia].
  - pose proof (group_nonempty events k Hk).
    destruct (group events k); [congruence | discriminate].
  - intros x Hx. apply in_map_iff in Hx as (e & <- & _). apply is_error_01.
Qed.

(** X21: the averages of a row stay within the bounds of the raw values:
    when every response time (request size) of the log lies between two
    bounds, so does every average. *)
Theorem averages_within_bounds :
  forall (events : list Raw.Event) (lo hi lo' hi' : Z) (v : FeatureVector),
    (forall e, In e events -> (lo <= Raw.resp_time e <= hi)%Z) ->
    (forall e, In e events -> (lo' <= Raw.req_size e <= hi')%Z) ->
    In v (features events) ->
    inject_Z lo <= avg_resp_time v /\ avg_resp_time v <= inject_Z hi
    /\ inject_Z lo' <= avg_req_size v /\ avg_req_size v <= inject_Z hi'.
Proof.
  intros events lo hi lo' hi' v Ht Hs Hv.
  apply features_In in Hv as (a & Ha & ->).
  apply aggregate_In in Ha as (k & Hk & ->).
  cbn [avg_resp_time avg_req_size aggregate_group agg_avg_resp_time agg_avg_req_size].
  pose proof (group_nonempty events k Hk) as Hne.
  assert (Hne' : forall (B : Type) (f : Raw.Event -> B), map f (group events k) <> []).
  { intros B f. destruct (group events k); [congruence | discriminate]. }
  destruct (mean_bounds (map Raw.resp_time (group events k)) lo hi (Hne' _ _))
    as [H1 H2].
  { intros x Hx. apply in_map_iff in Hx as (e & <- & He).
    apply Ht. now apply group_In in He. }
  destruct (mean_bounds (map Raw.req_size (group events k)) lo' hi' (Hne' _ _))
    as [H3 H4].
  { intros x Hx. apply in_map_iff in Hx as (e & <- & He).
    apply Hs. now apply group_In in He. }
  repeat split; assumption.
Qed.

Lemma time_window_spec (t : Z) :
  (time_window t <= t < time_window t + minute)%Z
  /\ (time_window t mod minute = 0)%Z.
Proof.
  unfold time_window, minute. split; [|apply Z.mod_mul; lia].
  pose proof (Z.mod_pos_bound t 60000000 ltac:(lia)).
  pose proof (Z.div_mod t 60000000 ltac:(lia)). lia.
Qed.

(** X22: the requests aggregated into one row come from one address and lie
    within one calendar minute: their timestamps share the window, a
    multiple of a minute, and differ by less than a minute. *)
Theorem group_within_one_minute :
  forall (events : list Raw.Event) (k : key) (e1 e2 : Raw.Event),
    In e1 (group events k) ->
    In e2 (group events k) ->
    Raw.ip e1 = Raw.ip e2
    /\ (snd k mod minute = 0)%Z
    /\ (snd k <= Raw.timestamp e1 < snd k + minute)%Z
    /\ (Z.abs (Raw.timestamp e1 - Raw.timestamp e2) < minute)%Z.
Proof.
  intros events k e1 e2 H1 H2.
  apply group_In in H1 as [_ K1]. apply group_In in H2 as [_ K2].
  unfold key_of in K1, K2. subst k. injection K2 as Hip Hw.
  cbn [snd].
  destruct (time_window_spec (Raw.timestamp e1)) as [B1 M1].
  destruct (time_window_spec (Raw.timestamp e2)) as [B2 _].
  repeat split; try lia; try assumption. now symmetry.
Qed.

End AggregationRanges.

Lemma feature_vector_ranges_witness :
  (1 <= 2)%Z
  /\ 0 <= 1 # 2 /\ 1 # 2 <= 1
  /\ (1 <= 2 <= 2)%Z
  /\ exists b, Fin (2 # 2) = Fin b /\ 0 < b /\ b <= 1.
Proof.
  apply (feature_vector_ranges Sample.log
           {| Aggregation.ip := "10.0.0.7";
              Aggregation.req_per_min := 2;
              Aggregation.avg_resp_time := 300 # 2;
              Aggregation.error_rate := 1 # 2;
              Aggregation.avg_req_size := 800 # 2;
              Aggregation.unique_endpoints := 2;
              Aggregation.burst_score := Fin (2 # 2) |}).
  right. left. reflexivity.
Defined.

Lemma some_burst_score_is_one_witness :
  exists v b, In v (Aggregation.features Sample.log)
              /\ Aggregation.burst_score v = Fin b /\ b == 1.
Proof.
  apply (some_burst_score_is_one Sample.log). discriminate.
Defined.

Lemma error_rate_one_iff_all_failed_witness :
  Aggregation.agg_error_rate
    (Aggregation.aggregate_group Sample.log ("10.0.0.7"%string, 120000000%Z)) == 1
  <-> forall e, In e Sample.log ->
                Aggregation.key_of e = ("10.0.0.7"%string, 120000000%Z) ->
                (400 <= Raw.status e)%Z.
Proof.
  apply (error_rate_one_iff_all_failed Sample.log
           (Aggregation.aggregate_group Sample.log ("10.0.0.7"%string, 120000000%Z))).
  right. left. reflexivity.
Defined.

Lemma averages_within_bounds_witness :
  inject_Z 90 <= 300 # 2 /\ 300 # 2 <= inject_Z 200
  /\ inject_Z 250 <= 800 # 2 /\ 800 # 2 <= inject_Z 500.
Proof.
  apply (averages_within_bounds Sample.log 90 200 250 500
           {| Aggregation.ip := "10.0.0.7";
              Aggregation.req_per_min := 2;
              Aggregation.avg_resp_time := 300 # 2;
              Aggregation.error_rate := 1 # 2;
              Aggregation.avg_req_size := 800 # 2;
              Aggregation.unique_endpoints := 2;
              Aggregation.burst_score := Fin (2 # 2) |}).
  - intros e [<- | [<- | [<- | []]]]; simpl; lia.
  - intros e [<- | [<- | [<- | []]]]; simpl; lia.
  - right. left. reflexivity.
Defined.

Lemma group_within_one_minute_witness :
  Raw.ip (Sample.event 120000000 "10.0.0.7" "/login" 200 300 100)
  = Raw.ip (Sample.event 150000000 "10.0.0.7" "/admin" 500 500 200)
  /\ (120000000 mod Aggregation.minute = 0)%Z
  /\ (120000000 <= 120000000 < 120000000 + Aggregation.minute)%Z
  /\ (Z.abs (120000000 - 150000000) < Aggregation.minute)%Z.
Proof.
  apply (group_within_one_minute Sample.log ("10.0.0.7"%string, 120000000%Z)
           (Sample.event 120000000 "10.0.0.7" "/login" 200 300 100)
           (Sample.event 150000000 "10.0.0.7" "/admin" 500 500 200)).
  - left. reflexivity.
  - right. left. reflexivity.
Defined.

(** ** traffic_generator.py: what the generated log looks like *)

Section SimulatorFacts.

Import Simulator.

Lemma choice_In (A : Type) (default : A) (xs : list A) (g : Rng) :
  xs <> [] -> In (fst (choice default xs g)) xs.
Proof.
  intros Hne. unfold choice, gbind, randbelow, ret. simpl.
  apply nth_In. apply Nat.mod_upper_bound.
  destruct xs; [congruence | discriminate].
Qed.

Lemma randint_range (a b : Z) (g : Rng) :
  (a <= b)%Z -> (a <= fst (randint a b g) <= b)%Z.
Proof.
  intros Hab. unfold randint, gbind, randbelow, ret. simpl.
  assert (H : (Nat.modulo (draws g (pos g)) (Z.to_nat (b - a + 1))
               < Z.to_nat (b - a + 1))%nat).
  { apply Nat.mod_upper_bound. lia. }
  lia.
Qed.

Lemma yields_ret (A : Type) (a : A) (P : A -> Prop) : P a -> yields (ret a) P.
Proof. intros H g. exact H. Qed.

Lemma yields_bind (A B : Type) (m : Gen A) (k : A -> Gen B)
      (P : A -> Prop) (Q : B -> Prop) :
  yields m P -> (forall a, P a -> yields (k a) Q) -> yields (gbind m k) Q.
Proof.
  intros Hm Hk g. unfold gbind. specialize (Hm g).
  destruct (m g) as [a g']. now apply Hk.
Qed.

Lemma yields_weaken (A : Type) (m : Gen A) (P Q : A -> Prop) :
  yields m P -> (forall a, P a -> Q a) -> yields m Q.
Proof. intros Hm H g. apply H, Hm. Qed.

Lemma yields_choice (A : Type) (default : A) (xs : list A) :
  xs <> [] -> yields (choice default xs) (fun a => In a xs).
Proof. intros H g. now apply choice_In. Qed.

Lemma yields_randint (a b : Z) :
  (a <= b)%Z -> yields (randint a b) (fun z => (a <= z <= b)%Z).
Proof. intros H g. now apply randint_range. Qed.

Ltac gen_step :=
  first
    [ eapply yields_bind;
      [ first [ apply yields_choice; discriminate
              | apply yields_randint; lia ]
      | cbv beta; intros ? ? ]
    | apply yields_ret ].

Lemma normal_request_shape (t : Z) :
  yields (generate_normal_request t)
         (fun e => Raw.timestamp e = t /\ normal_shape e).
Proof.
  unfold generate_normal_request.
  eapply yields_bind; [apply yields_choice; discriminate|]. intros ip Hip.
  eapply yields_bind; [apply yields_choice; discriminate|]. intros ep Hep.
  eapply yields_bind; [apply yields_choice; discriminate|]. intros me Hme.
  eapply yields_bind; [apply yields_choice; discriminate|]. intros st Hst.
  eapply yields_bind; [apply yields_randint; lia|]. intros sz Hsz.
  eapply yields_bind; [apply yields_randint; lia|]. intros rt Hrt.
  eapply yields_bind; [apply yields_choice; discriminate|]. intros ua Hua.
  apply yields_ret. unfold normal_shape.
  cbn [Raw.timestamp Raw.ip Raw.endpoint Raw.method
       Raw.status Raw.req_size Raw.resp_time Raw.user_agent].
  split; [reflexivity|].
  split; [exact Hip|]. split; [exact Hep|]. split; [exact Hme|].
  split; [|split; [exact Hsz | split; [exact Hrt | exact Hua]]].
  destruct Hst as [<- | [<- | [<- | [<- | []]]]]; auto.
Qed.

Lemma attack_request_shape (t : Z) :
  yields (generate_attack_request t)
         (fun e => Raw.timestamp e = t /\ attack_shape e).
Proof.
  unfold generate_attack_request. repeat gen_step.
  unfold attack_shape. cbn [Raw.timestamp Raw.ip Raw.endpoint Raw.method
    Raw.status Raw.req_size Raw.resp_time Raw.user_agent].
  repeat split; try assumption; try lia.
Qed.

Lemma stealth_attack_shape (t : Z) :
  yields (generate_stealth_attack t)
         (fun e => Raw.timestamp e = t /\ stealth_shape e).
Proof.
  unfold generate_stealth_attack. repeat gen_step.
  unfold stealth_shape. cbn [Raw.timestamp Raw.ip Raw.endpoint Raw.method
    Raw.status Raw.req_size Raw.resp_time Raw.user_agent].
  repeat split; try assumption; try lia.
Qed.

Lemma append_n_spec (A : Type) (n : nat) (gen : Gen A) (P : A -> Prop) :
  yields gen P ->
  forall rows,
    yields (append_n n gen rows)
           (fun rows' => exists new, rows' = rows ++ new
                                     /\ List.length new = n /\ Forall P new).
Proof.
  intros Hgen. induction n as [|n IH]; intros rows.
  - apply yields_ret. exists []. now rewrite app_nil_r.
  - cbn [append_n]. eapply yields_bind; [exact Hgen|]. intros a Ha.
    eapply yields_weaken; [apply IH|]. cbv beta.
    intros rows' (new & -> & Hlen & Hall).
    exists (a :: new). rewrite <- app_assoc. simpl.
    repeat split; [now rewrite Hlen | now constructor].
Qed.

Lemma normal_not_stealth (e : Raw.Event) : normal_shape e -> is_stealth e = false.
Proof.
  intros (Hip & _). unfold is_stealth.
  destruct (String.eqb_spec (Raw.ip e) "10.0.0.200") as [E | _]; [|reflexivity].
  rewrite E in Hip. apply (proj2 (mem_In _ _)) in Hip.
  vm_compute in Hip. discriminate Hip.
Qed.

Lemma attack_not_stealth (e : Raw.Event) : attack_shape e -> is_stealth e = false.
Proof.
  intros (Hip & _). unfold is_stealth.
  destruct (String.eqb_spec (Raw.ip e) "10.0.0.200") as [E | _]; [|reflexivity].
  rewrite E in Hip. simpl in Hip. intuition discriminate.
Qed.

Lemma filter_none (A : Type) (f : A -> bool) (l : list A) :
  Forall (fun a => f a = false) l -> filter f l = [].
Proof.
  induction 1 as [|a l Ha _ IH]; [reflexivity|]. simpl. now rewrite Ha.
Qed.

(** The rows one pass of the loop appends. *)
Lemma generate_minute_spec (start_time : Z) (minute : nat) (rows : list Raw.Event) :
  yields (generate_minute start_time minute rows)
    (fun rows' =>
       exists new,
         rows' = rows ++ new
         /\ Forall (in_minute start_time minute) new
         /\ (30 <= List.length new <= 101)%nat
         /\ map Raw.timestamp (filter is_stealth new)
            = if Nat.leb 6 minute
              then [(start_time + Z.of_nat minute * one_minute)%Z]
              else []).
Proof.
  unfold generate_minute. cbv zeta.
  set (t := (start_time + Z.of_nat minute * one_minute)%Z).
  eapply yields_bind; [apply (yields_randint 30 60); lia|]. intros n Hn.
  cbv beta in Hn.
  eapply yields_bind;
    [apply (append_n_spec _ _ _ _ (normal_request_shape t))|].
  intros rows1 (new1 & -> & Hlen1 & Hall1).
  eapply (yields_bind _ _ _ _
            (fun rows2 =>
               exists new2,
                 rows2 = (rows ++ new1) ++ new2
                 /\ Forall (fun e => Raw.timestamp e = t /\ attack_shape e) new2
                 /\ (List.length new2 <= 40)%nat
                 /\ (new2 = [] \/ Nat.modulo minute 4 = 0%nat))).
  { destruct (Nat.eqb_spec (Nat.modulo minute 4) 0) as [E | E].
    - eapply yields_bind; [apply (yields_randint 20 40); lia|]. intros m Hm.
      cbv beta in Hm.
      eapply yields_weaken;
        [apply (append_n_spec _ _ _ _ (attack_request_shape t))|].
      cbv beta. intros rows2 (new2 & -> & Hlen2 & Hall2).
      exists new2. repeat split; [assumption | lia | now right].
    - apply yields_ret. exists []. rewrite app_nil_r.
      repeat split; [constructor | simpl; lia | now left]. }
  intros rows2 (new2 & -> & Hall2 & Hlen2 & Hmod).
  assert (Hns1 : filter is_stealth new1 = []).
  { apply filter_none. eapply Forall_impl; [|exact Hall1].
    intros e [_ He]. now apply normal_not_stealth. }
  assert (Hns2 : filter is_stealth new2 = []).
  { apply filter_none. eapply Forall_impl; [|exact Hall2].
    intros e [_ He]. now apply attack_not_stealth. }
  assert (Hin1 : Forall (in_minute start_time minute) new1).
  { eapply Forall_impl; [|exact Hall1]. intros e [Ht He].
    split; [exact Ht | now left]. }
  assert (Hin2 : Forall (in_minute start_time minute) new2).
  { destruct Hmod as [-> | Hmod]; [constructor|].
    eapply Forall_impl; [|exact Hall2]. intros e [Ht He].
    split; [exact Ht | right; left; now split]. }
  destruct (Nat.leb_spec 6 minute) as [H6 | H6].
  - eapply yields_bind; [apply (stealth_attack_shape t)|].
    intros a [Hta Ha]. apply yields_ret.
    exists (new1 ++ new2 ++ [a]). rewrite <- !app_assoc.
    repeat split.
    + repeat (apply Forall_app; split); try assumption.
      constructor; [|constructor]. split; [exact Hta | right; right; now split].
    + rewrite !length_app. simpl. lia.
    + rewrite !length_app. simpl. lia.
    + rewrite !filter_app, Hns1, Hns2. simpl.
      destruct Ha as (Hip & _). unfold is_stealth. rewrite Hip. simpl.
      now rewrite Hta.
  - apply yields_ret. exists (new1 ++ new2). rewrite <- !app_assoc.
    repeat split.
    + apply Forall_app; now split.
    + rewrite length_app. lia.
    + rewrite length_app. lia.
    + now rewrite filter_app, Hns1, Hns2.
Qed.

Lemma for_minutes_spec (start_time : Z) (minutes : list nat) :
  forall rows,
    yields (for_minutes start_time minutes rows)
      (fun rows' =>
         exists new,
           rows' = rows ++ new
           /\ Forall (fun e => exists m, In m minutes /\ in_minute start_time m e) new
           /\ (30 * List.length minutes <= List.length new
               <= 101 * List.length minutes)%nat
           /\ map Raw.timestamp (filter is_stealth new)
              = map (fun m => (start_time + Z.of_nat m * one_minute)%Z)
                    (filter (Nat.leb 6) minutes)).
Proof.
  induction minutes as [|m minutes IH]; intros rows.
  - apply yields_ret. exists []. rewrite app_nil_r.
    repeat split; [constructor | simpl; lia | simpl; lia].
  - cbn [for_minutes]. eapply yields_bind; [apply generate_minute_spec|].
    intros rows1 (new1 & -> & Hall1 & Hlen1 & Hst1).
    eapply yields_weaken; [apply IH|]. cbv beta.
    intros rows2 (new2 & -> & Hall2 & Hlen2 & Hst2).
    exists (new1 ++ new2). rewrite <- app_assoc. repeat split.
    + apply Forall_app. split.
      * eapply Forall_impl; [|exact Hall1]. intros e He. exists m.
        split; [now left | exact He].
      * eapply Forall_impl; [|exact Hall2]. intros e (m' & Hm' & He).
        exists m'. split; [now right | exact He].
    + rewrite length_app. simpl List.length. lia.
    + rewrite length_app. simpl List.length. lia.
    + rewrite filter_app, map_app, Hst1, Hst2. cbn [filter].
      destruct (Nat.leb 6 m); reflexivity.
Qed.

Lemma generated_log_shape_aux (minutes : nat) (start_time : Z) (g : Rng) :
  (forall e, In e (fst (generate_traffic minutes start_time g)) ->
             exists m, (m < minutes)%nat /\ in_minute start_time m e)
  /\ map Raw.timestamp
       (filter is_stealth (fst (generate_traffic minutes start_time g)))
     = map (fun m => (start_time + Z.of_nat m * one_minute)%Z)
           (filter (Nat.leb 6) (seq 0 minutes)).
Proof.
  destruct (for_minutes_spec start_time (seq 0 minutes) [] g)
    as (new & Hnew & Hall & _ & Hst).
  fold (generate_traffic minutes start_time) in Hnew.
  simpl in Hnew. rewrite Hnew. split; [|exact Hst].
  intros e He. rewrite Forall_forall in Hall.
  destruct (Hall e He) as (m & Hm & Hin). exists m. split; [|exact Hin].
  apply in_seq in Hm. lia.
Qed.

(** X23: whatever the random draws, every request of a generated log
    belongs to one minute of the run and is of one of three kinds: normal
    traffic (a client address, never [/admin], status 200 or 404, never the
    bot agent), a burst attack (status 401, 403 or 500, only in minutes
    divisible by 4) or the stealth attack (only from minute 6 on); the log
    holds between 30 and 101 requests per minute. *)
Theorem generated_log_shape :
  forall (minutes : nat) (start_time : Z) (g : Rng),
    let log := fst (generate_traffic minutes start_time g) in
    (forall e, In e log ->
               exists m, (m < minutes)%nat /\ in_minute start_time m e)
    /\ (30 * minutes <= List.length log <= 101 * minutes)%nat.
Proof.
  intros minutes start_time g log.
  destruct (for_minutes_spec start_time (seq 0 minutes) [] g)
    as (new & Hnew & Hall & Hlen & _).
  fold (generate_traffic minutes start_time) in Hnew. fold log in Hnew.
  simpl in Hnew. rewrite Hnew. rewrite length_seq in Hlen. split; [|exact Hlen].
  intros e He. rewrite Forall_forall in Hall.
  destruct (Hall e He) as (m & Hm & Hin). exists m. split; [|exact Hin].
  apply in_seq in Hm. lia.
Qed.

End SimulatorFacts.

(** ** From the generated log to the feature table *)

Section GeneratedFeatures.

Import Simulator.

(** A row of the feature table and the group it summarises. *)
Lemma feature_row_group (events : list Raw.Event) (v : Aggregation.FeatureVector) :
  In v (Aggregation.features events) ->
  exists k,
    Aggregation.group events k <> []
    /\ (forall e, In e (Aggregation.group events k) ->
                  In e events /\ Raw.ip e = Aggregation.ip v
                  /\ Aggregation.time_window (Raw.timestamp e) = snd k)
    /\ Aggregation.req_per_min v
       = Z.of_nat (List.length (Aggregation.group events k))
    /\ Aggregation.avg_resp_time v
       = Aggregation.mean (map Raw.resp_time (Aggregation.group events k))
    /\ Aggregation.error_rate v
       = Aggregation.mean (map (fun e => Aggregation.is_error (Raw.status e))
                               (Aggregation.group events k))
    /\ Aggregation.avg_req_size v
       = Aggregation.mean (map Raw.req_size (Aggregation.group events k))
    /\ Aggregation.unique_endpoints v
       = Aggregation.nunique (map Raw.endpoint (Aggregation.group events k)).
Proof.
  intros Hv. apply features_In in Hv as (a & Ha & ->).
  apply aggregate_In in Ha as (k & Hk & ->). exists k.
  split; [now apply group_nonempty|]. split.
  - intros e He. apply group_In in He as [He Hkey]. subst k.
    repeat split; assumption.
  - cbn. rewrite length_map. repeat split.
Qed.

Lemma map_nonempty (A B : Type) (f : A -> B) (l : list A) :
  l <> [] -> map f l <> [].
Proof. destruct l; [congruence | discriminate]. Qed.

(** X24: in the feature table of any generated log, the rows of the two
    burst attackers stand apart from the rows of the clients: error rate 1,
    an average response time of at least 300 and an average request size of
    at least 900, against at most 250 and at most 800 for a client. *)
Theorem burst_attackers_stand_apart :
  forall (minutes : nat) (start_time : Z) (g : Rng)
         (v : Aggregation.FeatureVector),
    In v (Aggregation.features (fst (generate_traffic minutes start_time g))) ->
    (In (Aggregation.ip v) ["10.0.0.99"; "10.0.0.100"]%string ->
     Aggregation.error_rate v == 1
     /\ 300 <= Aggregation.avg_resp_time v
     /\ 900 <= Aggregation.avg_req_size v)
    /\ (In (Aggregation.ip v) IPS ->
        Aggregation.avg_resp_time v <= 250
        /\ Aggregation.avg_req_size v <= 800).
Proof.
  intros minutes start_time g v Hv.
  destruct (generated_log_shape_aux minutes start_time g) as [Hshape _].
  destruct (feature_row_group _ v Hv)
    as (k & Hne & Hgroup & _ & Hresp & Herr & Hsize & _).
  rewrite Hresp, Herr, Hsize. split.
  - intros Hip.
    assert (Hatt : forall e, In e (Aggregation.group
                                     (fst (generate_traffic minutes start_time g)) k) ->
                             attack_shape e).
    { intros e He. destruct (Hgroup e He) as (Hin & Hipe & _).
      destruct (Hshape e Hin) as (m & _ & _ & [Hn | [[Ha _] | [Hs _]]]).
      - exfalso. destruct Hn as (Hn & _). rewrite Hipe in Hn.
        apply (proj2 (mem_In _ _)) in Hn.
        destruct Hip as [E | [E | []]]; rewrite <- E in Hn;
          vm_compute in Hn; discriminate Hn.
      - exact Ha.
      - exfalso. destruct Hs as (Hs & _). rewrite Hipe in Hs.
        destruct Hip as [E | [E | []]]; rewrite <- E in Hs; discriminate Hs. }
    split; [|split].
    + apply mean_is_one; [now apply map_nonempty | |].
      * intros x Hx. apply in_map_iff in Hx as (e & <- & _). apply is_error_01.
      * intros x Hx. apply in_map_iff in Hx as (e & <- & He).
        destruct (Hatt e He) as (_ & _ & _ & Hst & _).
        simpl in Hst. destruct Hst as [<- | [<- | [<- | []]]]; reflexivity.
    + apply (mean_bounds _ 300 800); [now apply map_nonempty|].
      intros x Hx. apply in_map_iff in Hx as (e & <- & He).
      now destruct (Hatt e He) as (_ & _ & _ & _ & _ & Ht & _).
    + apply (mean_bounds _ 900 2000); [now apply map_nonempty|].
      intros x Hx. apply in_map_iff in Hx as (e & <- & He).
      now destruct (Hatt e He) as (_ & _ & _ & _ & Hsz & _).
  - intros Hip.
    assert (Hnorm : forall e, In e (Aggregation.group
                                      (fst (generate_traffic minutes start_time g)) k) ->
                              normal_shape e).
    { intros e He. destruct (Hgroup e He) as (Hin & Hipe & _).
      destruct (Hshape e Hin) as (m & _ & _ & [Hn | [[Ha _] | [Hs _]]]).
      - exact Hn.
      - exfalso. destruct Ha as (Ha & _). rewrite Hipe in Ha.
        apply (proj2 (mem_In _ _)) in Hip.
        destruct Ha as [E | [E | []]]; rewrite <- E in Hip;
          vm_compute in Hip; discriminate Hip.
      - exfalso. destruct Hs as (Hs & _). rewrite Hipe in Hs.
        apply (proj2 (mem_In _ _)) in Hip. rewrite Hs in Hip.
        vm_compute in Hip. discriminate Hip. }
    split.
    + apply (mean_bounds _ 80 250); [now apply map_nonempty|].
      intros x Hx. apply in_map_iff in Hx as (e & <- & He).
      now destruct (Hnorm e He) as (_ & _ & _ & _ & _ & Ht & _).
    + apply (mean_bounds _ 200 800); [now apply map_nonempty|].
      intros x Hx. apply in_map_iff in Hx as (e & <- & He).
      now destruct (Hnorm e He) as (_ & _ & _ & _ & Hsz & _).
Qed.

Lemma time_window_shift (t : Z) (m : nat) :
  Aggregation.time_window (t + Z.of_nat m * one_minute)
  = (Aggregation.time_window t + Z.of_nat m * one_minute)%Z.
Proof.
  unfold Aggregation.time_window, Aggregation.minute, one_minute.
  rewrite Z.div_add by lia. lia.
Qed.

Lemma filter_ext_in_map_eq (w start_time : Z) (ms : list nat) :
  filter (fun t => Z.eqb (Aggregation.time_window t) w)
         (map (fun m => (start_time + Z.of_nat m * one_minute)%Z) ms)
  = map (fun m => (start_time + Z.of_nat m * one_minute)%Z)
        (filter (fun m => Z.eqb (Aggregation.time_window
                                   (start_time + Z.of_nat m * one_minute)) w) ms).
Proof.
  induction ms as [|m ms IH]; [reflexivity|]. cbn [map filter].
  destruct (Z.eqb _ w); cbn [map]; now rewrite IH.
Qed.

(** At most one element of a duplicate-free list is sent to a given value
    by an injective function. *)
Lemma filter_injective_length (f : nat -> Z) (w : Z) (ms : list nat) :
  NoDup ms ->
  (forall m m', f m = f m' -> m = m') ->
  (List.length (filter (fun m => Z.eqb (f m) w) ms) <= 1)%nat.
Proof.
  intros Hnd Hinj. induction Hnd as [|m ms Hm Hnd IH]; [simpl; lia|].
  cbn [filter]. destruct (Z.eqb_spec (f m) w) as [E | E]; [|exact IH].
  assert (Hnone : filter (fun m' => Z.eqb (f m') w) ms = []).
  { apply filter_none. apply Forall_forall. intros m' Hm'.
    destruct (Z.eqb_spec (f m') w) as [E' | _]; [|reflexivity].
    elim Hm. rewrite (Hinj m m'); [assumption | congruence]. }
  rewrite Hnone. simpl. lia.
Qed.

(** The events of a group of the stealth address, counted through their
    timestamps. *)
Lemma stealth_group_length (events : list Raw.Event) (w : Z) :
  List.length (Aggregation.group events ("10.0.0.200"%string, w))
  = List.length
      (filter (fun t => Z.eqb (Aggregation.time_window t) w)
              (map Raw.timestamp (filter is_stealth events))).
Proof.
  unfold Aggregation.group. induction events as [|e events IH]; [reflexivity|].
  cbn [filter]. unfold is_stealth at 1, Aggregation.key_eqb at 1.
  destruct (String.eqb_spec (Raw.ip e) "10.0.0.200") as [Hip | Hip].
  - cbn [map filter].
    destruct (Z.eqb_spec (Aggregation.time_window (Raw.timestamp e)) w) as [Hw | Hw].
    + destruct (Aggregation.key_dec _ _) as [_ | Hk].
      * cbn [List.length]. now rewrite IH.
      * elim Hk. unfold Aggregation.key_of. now rewrite Hip, Hw.
    + destruct (Aggregation.key_dec _ _) as [Hk | _]; [|exact IH].
      unfold Aggregation.key_of in Hk. injection Hk as _ Hk. contradiction.
  - destruct (Aggregation.key_dec _ _) as [Hk | _]; [|exact IH].
    unfold Aggregation.key_of in Hk. injection Hk as Hk _. contradiction.
Qed.

(** X25: the stealth attack stays "low and slow" in the features: in the
    feature table of any generated log, every row of the address
    10.0.0.200 counts exactly one request, on one endpoint, with error
    rate 1. *)
Theorem stealth_attacker_one_request_per_row :
  forall (minutes : nat) (start_time : Z) (g : Rng)
         (v : Aggregation.FeatureVector),
    In v (Aggregation.features (fst (generate_traffic minutes start_time g))) ->
    Aggregation.ip v = "10.0.0.200"%string ->
    Aggregation.req_per_min v = 1%Z
    /\ Aggregation.unique_endpoints v = 1%Z
    /\ Aggregation.error_rate v == 1.
Proof.
  intros minutes start_time g v Hv Hip.
  destruct (generated_log_shape_aux minutes start_time g) as [Hshape Hst].
  destruct (feature_row_group _ v Hv)
    as (k & Hne & Hgroup & Hreq & _ & Herr & _ & Hend).
  set (log := fst (generate_traffic minutes start_time g)) in *.
  assert (Hk : k = ("10.0.0.200"%string, snd k)).
  { destruct (Aggregation.group log k) as [|e l] eqn:E; [congruence|].
    assert (He : In e (Aggregation.group log k)) by (rewrite E; now left).
    apply group_In in He as [_ He]. rewrite <- He. cbn [snd].
    unfold Aggregation.key_of. f_equal.
    destruct (Hgroup e) as (_ & Hipe & _); [now left|]. congruence. }
  assert (Hlen : (List.length (Aggregation.group log k) <= 1)%nat).
  { rewrite Hk, stealth_group_length, Hst.
    rewrite (filter_ext_in_map_eq (snd k) start_time).
    rewrite length_map. apply filter_injective_length.
    - apply NoDup_filter, seq_NoDup.
    - intros m m'. rewrite !time_window_shift. unfold one_minute. lia. }
  destruct (Aggregation.group log k) as [|e [|e' l]] eqn:E;
    [congruence | | simpl in Hlen; lia].
  rewrite Hreq, Hend, Herr. cbn [map List.length].
  assert (Hs : In (Raw.status e) [401; 403]%Z).
  { destruct (Hgroup e (or_introl eq_refl)) as (Hin & Hipe & _).
    destruct (Hshape e Hin) as (m & _ & _ & [Hn | [[Ha _] | [Hs _]]]).
    - exfalso. destruct Hn as (Hn & _). rewrite Hipe, Hip in Hn.
      apply (proj2 (mem_In _ _)) in Hn. vm_compute in Hn. discriminate Hn.
    - exfalso. destruct Ha as (Ha & _). rewrite Hipe, Hip in Ha.
      simpl in Ha. intuition discriminate.
    - now destruct Hs as (_ & _ & _ & Hs & _). }
  repeat split.
  simpl in Hs. destruct Hs as [<- | [<- | []]]; reflexivity.
Qed.

End GeneratedFeatures.

Lemma burst_attackers_stand_apart_witness :
  exists v,
    find (fun v => String.eqb (Aggregation.ip v) "10.0.0.99")
         (Aggregation.features (fst (Simulator.generate_traffic 7 0 Sample.oracle))) = Some v
    /\ Aggregation.error_rate v == 1
    /\ 300 <= Aggregation.avg_resp_time v
    /\ 900 <= Aggregation.avg_req_size v.
Proof.
  destruct (find (fun v => String.eqb (Aggregation.ip v) "10.0.0.99")
                 (Aggregation.features (fst (Simulator.generate_traffic 7 0 Sample.oracle)))) as [v|] eqn:E.
  - exists v. split; [reflexivity|].
    apply find_some in E as [Hin Hip]. apply String.eqb_eq in Hip.
    apply (burst_attackers_stand_apart 7 0 Sample.oracle v Hin).
    rewrite Hip. left. reflexivity.
  - vm_compute in E. discriminate E.
Defined.

Lemma stealth_attacker_one_request_per_row_witness :
  exists v,
    find (fun v => String.eqb (Aggregation.ip v) "10.0.0.200")
         (Aggregation.features (fst (Simulator.generate_traffic 7 0 Sample.oracle))) = Some v
    /\ Aggregation.req_per_min v = 1%Z
    /\ Aggregation.unique_endpoints v = 1%Z
    /\ Aggregation.error_rate v == 1.
Proof.
  destruct (find (fun v => String.eqb (Aggregation.ip v) "10.0.0.200")
                 (Aggregation.features (fst (Simulator.generate_traffic 7 0 Sample.oracle)))) as [v|] eqn:E.
  - exists v. split; [reflexivity|].
    apply find_some in E as [Hin Hip]. apply String.eqb_eq in Hip.
    exact (stealth_attacker_one_request_per_row 7 0 Sample.oracle v Hin Hip).
  - vm_compute in E. discriminate E.
Defined.

(** ** train_model.py with anomaly_detector.py *)

Section TrainThenInfer.

Import Inference.

Lemma NoDup_columns_unique (df : DataFrame) (l : string) (d d' : list cell) :
  NoDup (columns df) -> In (l, d) df -> In (l, d') df -> d = d'.
Proof.
  intros Hnd H H'.
  destruct (filter_label_unique df l Hnd) as (d0 & Hf & _).
  { change l with (fst (l, d)). now apply in_map. }
  assert (H1 : In (l, d) (filter (fun c => String.eqb (fst c) l) df)).
  { apply filter_In. split; [assumption | apply String.eqb_refl]. }
  assert (H2 : In (l, d') (filter (fun c => String.eqb (fst c) l) df)).
  { apply filter_In. split; [assumption | apply String.eqb_refl]. }
  rewrite Hf in H1, H2. destruct H1 as [E1 | []]. destruct H2 as [E2 | []].
  congruence.
Qed.

(** Selecting the labels of some columns of a table gives these columns. *)
Lemma select_own_columns (df X : DataFrame) :
  NoDup (columns df) -> incl X df ->
  flat_map (fun l => filter (fun c => String.eqb (fst c) l) df) (columns X) = X.
Proof.
  intros Hnd. induction X as [|[l d] X IH]; intros Hincl; [reflexivity|].
  cbn [columns map flat_map fst].
  destruct (filter_label_unique df l Hnd) as (d0 & Hf & Hd0).
  { change l with (fst (l, d)). apply in_map, Hincl. now left. }
  rewrite Hf.
  rewrite (NoDup_columns_unique df l d0 d Hnd Hd0 (Hincl _ (or_introl eq_refl))).
  simpl. f_equal. apply IH. intros c Hc. apply Hincl. now right.
Qed.

(** X26: a model fitted by the training script on a feature table (distinct
    labels, an [ip] column) accepts that table at inference and scores
    exactly the training matrix, the table without its [ip] column; it also
    accepts any other table that has the training columns.  The estimator
    is assumed to record the labels of its training matrix, as the library
    does for a DataFrame. *)
Theorem trained_model_accepts_its_table :
  forall (fit : DataFrame -> ScoringModel) (df : DataFrame) (model : ScoringModel),
    (forall X, feature_names_in_ (fit X) = Some (columns X)) ->
    NoDup (columns df) ->
    Training.train_model fit df = Ok model ->
    exists X,
      Training.drop df ["ip"%string] = Ok X
      /\ ~ In "ip"%string (columns X)
      /\ feature_names_in_ model = Some (columns X)
      /\ select_features model df = Ok X
      /\ forall df', NoDup (columns df') ->
                     incl (columns X) (columns df') ->
                     exists X', select_features model df' = Ok X'
                                /\ columns X' = columns X.
Proof.
  intros fit df model Hfit Hnd Htrain. unfold Training.train_model in Htrain.
  destruct (Training.drop df ["ip"%string]) as [X|e] eqn:Hdrop;
    [|discriminate Htrain].
  simpl in Htrain. injection Htrain as <-. exists X.
  assert (HX : X = filter (fun c => negb (mem (fst c) ["ip"%string])) df).
  { unfold Training.drop in Hdrop. destruct (find _ _); [discriminate|].
    now injection Hdrop as <-. }
  assert (Hsub : incl X df).
  { rewrite HX. intros c Hc. now apply filter_In in Hc. }
  assert (Hcols : incl (columns X) (columns df)).
  { intros l Hl. unfold columns in *. apply in_map_iff in Hl as (c & <- & Hc).
    apply in_map. now apply Hsub. }
  split; [reflexivity|]. split; [|split; [apply Hfit | split]].
  - intros Hip. unfold columns in Hip. apply in_map_iff in Hip as (c & Hc & Hin).
    rewrite HX in Hin. apply filter_In in Hin as [_ Hin].
    rewrite Hc in Hin. discriminate Hin.
  - unfold select_features. rewrite Hfit, (missing_nil df _ Hcols).
    unfold getitem.
    rewrite (filter_nil_find _ _ _ (missing_nil df _ Hcols)).
    now rewrite select_own_columns.
  - intros df' Hnd' Hincl'.
    destruct (getitem_superset df' (columns X) Hnd' Hincl') as (X' & HX' & Hc' & _).
    exists X'. split; [|exact Hc'].
    unfold select_features. now rewrite Hfit, (missing_nil df' _ Hincl').
Qed.

Lemma trained_model_accepts_its_table_witness :
  exists X,
    Training.drop Sample.features ["ip"%string] = Ok X
    /\ ~ In "ip"%string (columns X)
    /\ feature_names_in_ (Sample.fit X) = Some (columns X)
    /\ select_features (Sample.fit X) Sample.features = Ok X.
Proof.
  destruct (trained_model_accepts_its_table Sample.fit Sample.features
              (Sample.fit [("error_rate", [CFloat (Fin (9 # 10))]);
                           ("burst_score", [CFloat (Fin (3 # 4))]);
                           ("req_per_min", [CInt 30])]%string))
    as (X & H1 & H2 & H3 & H4 & _).
  - reflexivity.
  - simpl. repeat (constructor; [simpl; intuition discriminate|]). constructor.
  - reflexivity.
  - exists X. injection H1 as <-. repeat split; assumption.
Defined.

(** Without an [ip] column the training script stops at the drop. *)
Example train_model_needs_ip :
  forall fit,
    Training.train_model fit Sample.incomplete_without_ip = Raise (KeyError "ip").
Proof. reflexivity. Qed.

End TrainThenInfer.

(** ** dashboard/app.py: counters, views and the response panel *)

Section DashboardFacts.

Import Dashboard.

Lemma annotate_row_label (t : Telemetry) :
  (8 < risk_score t
   /\ anomaly_label (annotate_row t) = "Anomaly"%string
   /\ recommended_action (annotate_row t) = "BLOCK IP / ALERT WATCH OFFICER"%string)
  \/ (risk_score t <= 8
      /\ anomaly_label (annotate_row t) = "Normal"%string
      /\ recommended_action (annotate_row t) = "MONITOR"%string).
Proof.
  unfold annotate_row, F.gtb, F.ltb. cbn [anomaly_label recommended_action].
  destruct (Qcompare_spec 8 (risk_score t)) as [E | E | E].
  - right. repeat split. rewrite E. apply Qle_refl.
  - left. repeat split. exact E.
  - right. repeat split. now apply Qlt_le_weak.
Qed.

Lemma filter_split_length (A : Type) (f g : A -> bool) (l : list A) :
  (forall a, In a l -> f a = negb (g a)) ->
  (List.length (filter f l) + List.length (filter g l) = List.length l)%nat.
Proof.
  induction l as [|a l IH]; intros H; [reflexivity|].
  cbn [filter]. rewrite (H a (or_introl eq_refl)).
  assert (IH' := IH (fun b Hb => H b (or_intror Hb))).
  destruct (g a); cbn [negb List.length]; lia.
Qed.

(** X27: on the table built by [load_live_traffic] the counters and views
    agree: each row is labeled Anomaly (risk above 8, action "BLOCK IP /
    ALERT WATCH OFFICER") or Normal (risk at most 8, action "MONITOR"); the
    "Active Threats Only" and "Normal Traffic" views split the table; the
    threat counter is the size of the first and the "Secure Traffic" card the
    size of the second; the banner reads "SYSTEM SECURE" exactly when no
    risk score exceeds 8. *)
Theorem dashboard_counters_agree :
  forall data : list Telemetry,
    let df := annotate data in
    (forall r, In r df ->
       (8 < risk_score (telemetry r) /\ is_anomaly r = true
        /\ recommended_action r = "BLOCK IP / ALERT WATCH OFFICER"%string)
       \/ (risk_score (telemetry r) <= 8 /\ is_normal_row r = true
           /\ is_anomaly r = false
           /\ recommended_action r = "MONITOR"%string))
    /\ (List.length (view_df "Active Threats Only" df)
        + List.length (view_df "Normal Traffic" df)
        = List.length (view_df "All Traffic" df))%nat
    /\ threat_count df = List.length (view_df "Active Threats Only" df)
    /\ secure_count df = Z.of_nat (List.length (view_df "Normal Traffic" df))
    /\ (status_text df = "SYSTEM SECURE"%string
        <-> forall t, In t data -> risk_score t <= 8).
Proof.
  intros data df.
  assert (Hrows : forall r, In r df ->
            (8 < risk_score (telemetry r) /\ is_anomaly r = true
             /\ recommended_action r = "BLOCK IP / ALERT WATCH OFFICER"%string)
            \/ (risk_score (telemetry r) <= 8 /\ is_normal_row r = true
                /\ is_anomaly r = false
                /\ recommended_action r = "MONITOR"%string)).
  { intros r Hr. apply in_map_iff in Hr as (t & <- & _).
    unfold is_anomaly, is_normal_row.
    destruct (annotate_row_label t) as [(H1 & H2 & H3) | (H1 & H2 & H3)];
      [left | right]; rewrite H2; repeat split; assumption. }
  assert (Hsplit : (List.length (filter is_anomaly df)
                    + List.length (filter is_normal_row df)
                    = List.length df)%nat).
  { apply filter_split_length. intros r Hr.
    destruct (Hrows r Hr) as [(_ & Ha & _) | (_ & Hn & Ha & _)].
    - rewrite Ha. unfold is_anomaly, is_normal_row in *.
      apply String.eqb_eq in Ha. now rewrite Ha.
    - now rewrite Ha, Hn. }
  split; [exact Hrows|]. split; [exact Hsplit|]. split; [reflexivity|].
  split.
  - unfold secure_count, threat_count. cbn [view_df String.eqb Ascii.eqb Bool.eqb].
    lia.
  - unfold status_text, threat_count. split.
    + intros Hs t Ht.
      destruct (Nat.ltb_spec 0 (List.length (filter is_anomaly df))) as [Hpos | Hz];
        [discriminate Hs|].
      destruct (annotate_row_label t) as [(H1 & H2 & _) | (H1 & _)]; [|exact H1].
      exfalso.
      assert (Hin : In (annotate_row t) (filter is_anomaly df)).
      { apply filter_In. split; [now apply in_map|].
        unfold is_anomaly. now rewrite H2. }
      destruct (filter is_anomaly df); [destruct Hin | simpl in Hz; lia].
    + intros Hall.
      assert (Hnone : filter is_anomaly df = []).
      { apply filter_none. apply Forall_forall. intros r Hr.
        destruct (Hrows r Hr) as [(H1 & _) | (_ & _ & Ha & _)]; [|exact Ha].
        apply in_map_iff in Hr as (t & <- & Ht).
        specialize (Hall t Ht). cbn [telemetry annotate_row] in H1. lra. }
      now rewrite Hnone.
Qed.

Lemma unique_In (xs : list string) (x : string) : In x (unique xs) <-> In x xs.
Proof.
  induction xs as [|y xs IH]; [reflexivity|]. cbn [unique]. split.
  - intros [-> | H]; [now left|]. apply filter_In in H as [H _].
    right. now apply IH.
  - intros [-> | H]; [now left|].
    destruct (String.eqb_spec x y) as [-> | Hne]; [now left|].
    right. apply filter_In. split; [now apply IH|].
    destruct (String.eqb_spec x y); [contradiction | reflexivity].
Qed.

Lemma unique_NoDup (xs : list string) : NoDup (unique xs).
Proof.
  induction xs as [|y xs IH]; [constructor|]. cbn [unique]. constructor.
  - intros H. apply filter_In in H as [_ H].
    now rewrite String.eqb_refl in H.
  - now apply NoDup_filter.
Qed.

(** X28: the response panel never fails: whatever address the select box
    returns from its list of targets, the lookup [iloc[0]] finds a record,
    a row of the table labeled Anomaly with that address; the list offers
    each attacking address once. *)
Theorem target_lookup_never_fails :
  forall (df : list TrafficRow) (selected_ip : string),
    In selected_ip (target_list df) ->
    NoDup (target_list df)
    /\ exists record,
         target_record df selected_ip = Some record
         /\ In record df
         /\ ip (telemetry record) = selected_ip
         /\ anomaly_label record = "Anomaly"%string.
Proof.
  intros df selected_ip Hsel. split; [apply unique_NoDup|].
  unfold target_list in Hsel. apply unique_In, in_map_iff in Hsel
    as (r & Hip & Hr).
  unfold target_record.
  destruct (filter (fun r => String.eqb (ip (telemetry r)) selected_ip)
                   (filter is_anomaly df)) as [|record rest] eqn:E.
  - assert (Hin : In r (filter (fun r => String.eqb (ip (telemetry r)) selected_ip)
                              (filter is_anomaly df))).
    { apply filter_In. split; [assumption|]. rewrite Hip. apply String.eqb_refl. }
    rewrite E in Hin. destruct Hin.
  - exists record. split; [reflexivity|].
    assert (Hin : In record (record :: rest)) by now left.
    rewrite <- E in Hin. apply filter_In in Hin as [Hin Hi].
    apply filter_In in Hin as [Hin Ha].
    repeat split; [assumption | now apply String.eqb_eq | now apply String.eqb_eq].
Qed.

Lemma target_lookup_never_fails_witness :
  NoDup (target_list (annotate Sample.telemetry))
  /\ exists record,
       target_record (annotate Sample.telemetry) "10.1.2.3" = Some record
       /\ In record (annotate Sample.telemetry)
       /\ ip (telemetry record) = "10.1.2.3"%string
       /\ anomaly_label record = "Anomaly"%string.
Proof.
  apply (target_lookup_never_fails (annotate Sample.telemetry) "10.1.2.3").
  left. reflexivity.
Defined.

End DashboardFacts.
